(** * TractSeg: fusion of per-direction segmentations (DirectionMerger)

    A shallow embedding of [tractseg/libs/DirectionMerger.py].

    - NumPy arrays are modelled the way NumPy stores them: a shape and a
      flat buffer in C (row-major) order.
    - The element type of an array is an instance of [DType]; the file gives
      two: exact rationals [Q] and IEEE binary64 ([float], NumPy float64),
      the dtype of the probability volumes. What is said of the masks of
      probability volumes is proved on binary64, from the IEEE
      specification of its operations.
    - Python exceptions are the [Raise] outcomes of an error type.
    - The caller's array that [majority_fusion] overwrites lives in a heap
      indexed by references; the configuration object [HP] is an attribute
      dictionary held in the state of the runner.
    - The collaborators of the runner, and the import of [Trainer] that
      opens it, are parameters: stateful, and free to raise. *)

From Stdlib Require Import ZArith QArith Floats.
From stdpp Require Import gmap strings list functions pretty.

Local Close Scope Q_scope.
Local Open Scope nat_scope.

(** ** Outcomes of calls that may raise *)

Inductive outcome (X A : Type) : Type :=
  | Ok (a : A)
  | Raise (x : X).
Arguments Ok {X A} a.
Arguments Raise {X A} x.

(** The exceptions NumPy raises in the calls made here. *)
Inductive np_error : Type :=
  | AxisError                (* numpy.AxisError: axis out of bounds *)
  | ValueError.              (* sizes or shapes that do not agree *)

(** ** Arrays *)

Record ndarray (V : Type) : Type := NdArray { shape : list nat; data : list V }.
Arguments NdArray {V} shape data.
Arguments shape {V} _.
Arguments data {V} _.

(** Number of elements of an array of shape [s]. *)
Definition size_of (s : list nat) : nat := foldr Nat.mul 1 s.

(** The buffer of an array holds exactly as many elements as its shape says. *)
Definition wf {V} (a : ndarray V) : Prop := length (data a) = size_of (shape a).

(** Offset of a multi-index in the C-order buffer. *)
Fixpoint ravel_from (acc : nat) (s idx : list nat) : nat :=
  match s, idx with
  | n :: s', i :: idx' => ravel_from (acc * n + i) s' idx'
  | _, _ => acc
  end.

Definition ravel (s idx : list nat) : nat := ravel_from 0 s idx.

Fixpoint in_bounds (s idx : list nat) : bool :=
  match s, idx with
  | [], [] => true
  | n :: s', i :: idx' => (i <? n) && in_bounds s' idx'
  | _, _ => false
  end.

(** [a[i0, i1, ...]] with one index per axis. *)
Definition item {V} (a : ndarray V) (idx : list nat) : option V :=
  if in_bounds (shape a) idx then data a !! ravel (shape a) idx else None.

(** [a.astype(...)], and more generally an elementwise operation. *)
Definition amap {V R} (f : V → R) (a : ndarray V) : ndarray R :=
  NdArray (shape a) (f <$> data a).

(** [a[mask] = c] for a boolean mask of the shape of [a]. *)
Definition setitem_mask {V} (mask : ndarray bool) (c : V) (a : ndarray V) : ndarray V :=
  NdArray (shape a) (zip_with (λ (m : bool) v, if m then c else v) (data mask) (data a)).

(** [np.zeros(s)] and the like. *)
Definition full {V} (s : list nat) (c : V) : ndarray V :=
  NdArray s (replicate (size_of s) c).

(** The elements met along axis 4 at the position [p] of the first four
    axes and [q] of the axes after the fifth. *)
Definition lane {V} (d : list V) (n inner p q : nat) : list V :=
  omap (λ k, d !! ((p * n + k) * inner + q)) (seq 0 n).

(** A reduction along [axis=4]: the axis is dropped, [f] is given the
    elements along it and their number. *)
Definition reduce_axis4 {V R} (f : nat → list V → R) (a : ndarray V)
    : outcome np_error (ndarray R) :=
  match shape a with
  | s0 :: s1 :: s2 :: s3 :: n :: post =>
      let outer := s0 * s1 * s2 * s3 in
      let inner := size_of post in
      Ok (NdArray (s0 :: s1 :: s2 :: s3 :: post)
            (p ← seq 0 outer; q ← seq 0 inner; [f n (lane (data a) n inner p q)]))
  | _ => Raise AxisError
  end.

(** [np.reshape(a, new_shape)]: the buffer is kept, read in C order. *)
Definition reshape {V} (a : ndarray V) (new_shape : list nat)
    : outcome np_error (ndarray V) :=
  if size_of new_shape =? length (data a)
  then Ok (NdArray new_shape (data a))
  else Raise ValueError.

(** Length of axis 4, and whether a shape agrees with [s] on every axis
    but the fifth. *)
Definition dim4 (s : list nat) : nat := nth 4 s 0.

Definition same_but_axis4 (s s' : list nat) : bool :=
  bool_decide (length s' = length s ∧ take 4 s' = take 4 s ∧ drop 5 s' = drop 5 s).

(** [np.concatenate(arrs, axis=4)]. *)
Definition concatenate_axis4 {V} (arrs : list (ndarray V))
    : outcome np_error (ndarray V) :=
  match arrs with
  | [] => Raise ValueError
  | a0 :: _ =>
      match shape a0 with
      | s0 :: s1 :: s2 :: s3 :: _ :: post =>
          if forallb (λ a, same_but_axis4 (shape a0) (shape a)) arrs then
            let outer := s0 * s1 * s2 * s3 in
            let inner := size_of post in
            Ok (NdArray
                  (s0 :: s1 :: s2 :: s3 :: sum_list (dim4 ∘ shape <$> arrs) :: post)
                  (p ← seq 0 outer; a ← arrs;
                   take (dim4 (shape a) * inner)
                        (drop (p * (dim4 (shape a) * inner)) (data a))))
          else Raise ValueError
      | _ => Raise AxisError
      end
  end.

(** ** Element types *)

Class DType (V : Type) : Type := {
  of_int : Z → V;                   (* a Python int stored with this dtype *)
  add : V → V → V;                  (* np.add *)
  true_divide : V → V → V;          (* np.true_divide *)
  greater_equal : V → V → bool;     (* np.greater_equal, [x >= y] *)
  less : V → V → bool;              (* np.less, [x < y] *)
  astype_int16 : V → Z;             (* the cast of [.astype(np.int16)] *)
}.

(** Signed two's complement wrap-around to [w] bits. *)
Definition wrap (w : Z) (z : Z) : Z :=
  ((z + 2 ^ (w - 1)) mod 2 ^ w - 2 ^ (w - 1))%Z.

Definition int16 (z : Z) : Z := wrap 16 z.
Definition int64 (z : Z) : Z := wrap 64 z.

(** Exact rational arithmetic: the real-number reading of the array
    operations, without rounding and without NaN. *)
Definition Qlt_bool (x y : Q) : bool := (Qnum x * QDen y <? Qnum y * QDen x)%Z.

#[export] Instance Q_dtype : DType Q := {
  of_int := inject_Z;
  add := Qplus;
  true_divide := Qdiv;
  greater_equal x y := Qle_bool y x;
  less := Qlt_bool;
  astype_int16 q := int16 (Qnum q ÷ QDen q);
}.

(** NumPy float64. A Python int is converted with rounding to nearest.
    The C cast behind [astype(np.int16)] truncates toward zero; C leaves it
    undefined for NaN, infinities and values that do not fit, for which
    the result of x86-64 code is modelled (conversion to 32 bits with the
    "integer indefinite" value on failure, then the low 16 bits). *)
Definition f64_of_int (z : Z) : float := SF2Prim (binary_normalize prec emax z 0 false).

Definition SF_trunc (f : spec_float) : option Z :=
  match f with
  | S754_zero _ => Some 0%Z
  | S754_finite s m e =>
      let a := if (0 <=? e)%Z then (Z.pos m * 2 ^ e)%Z else (Z.pos m / 2 ^ (- e))%Z in
      Some (if s then (- a)%Z else a)
  | _ => None
  end.

Definition f64_astype_int16 (f : float) : Z :=
  match SF_trunc (Prim2SF f) with
  | Some z => if ((- 2 ^ 31 <=? z) && (z <? 2 ^ 31))%Z then int16 z else 0%Z
  | None => 0%Z
  end.

#[export] Instance float64_dtype : DType float := {
  of_int := f64_of_int;
  add := PrimFloat.add;
  true_divide := PrimFloat.div;
  greater_equal x y := PrimFloat.leb y x;
  less := PrimFloat.ltb;
  astype_int16 := f64_astype_int16;
}.

(** Element types whose comparisons are those of a total order (no NaN)
    and in which 0 and 1 are cast to the integers 0 and 1. *)
Class TotalOrderDType (V : Type) `{DType V} : Prop := {
  less_greater_equal : ∀ x y : V, less x y = negb (greater_equal x y);
  astype_int16_0 : astype_int16 (of_int 0 : V) = 0%Z;
  astype_int16_1 : astype_int16 (of_int 1 : V) = 1%Z;
}.

(** ** The fusion reducers *)

(** The sum of one lane of int16 values, as [np.add.reduce] computes it:
    in the platform integer, here 64 bits wide. *)
Definition count_lane (l : list Z) : Z := foldl (λ acc x, int64 (acc + x)) 0%Z l.

Section Fusion.
Context {V : Type} `{DType V}.

(** [a >= t] and [a < t] against a scalar: boolean arrays. *)
Definition ge_scalar (a : ndarray V) (t : V) : ndarray bool :=
  amap (λ v, greater_equal v t) a.
Definition lt_scalar (a : ndarray V) (t : V) : ndarray bool :=
  amap (λ v, less v t) a.

(** [np.add.reduce] of one lane, starting from the identity 0. *)
Definition sum_lane (l : list V) : V := foldl add (of_int 0) l.

(** [a.mean(axis=4)]: the sum along the axis divided by the number of
    items along it, in the dtype of the array (a floating dtype). *)
Definition mean_lane (n : nat) (l : list V) : V :=
  true_divide (sum_lane l) (of_int (Z.of_nat n)).

Definition mean_axis4 (a : ndarray V) : outcome np_error (ndarray V) :=
  reduce_axis4 mean_lane a.

(** [mean_fusion(threshold, img, probs)]. The result is an array of the
    dtype of [img] when [probs] holds and an int16 array otherwise. *)
Definition mean_fusion (threshold : V) (img : ndarray V) (probs : bool)
    : outcome np_error (ndarray V + ndarray Z) :=
  match mean_axis4 img with
  | Raise e => Raise e
  | Ok probs_mean =>
      if negb probs then
        let probs_mean :=
          setitem_mask (ge_scalar probs_mean threshold) (of_int 1) probs_mean in
        let probs_mean :=
          setitem_mask (lt_scalar probs_mean threshold) (of_int 0) probs_mean in
        let probs_mean := amap astype_int16 probs_mean in
        Ok (inr probs_mean)
      else Ok (inl probs_mean)
  end.

(** References to arrays, and a heap giving every reference its array. *)
Abbreviation loc := positive (only parsing).
Abbreviation heap := (loc → ndarray V) (only parsing).

(** [a.sum(axis=4)] of an int16 array. *)
Definition sum_axis4 (a : ndarray Z) : outcome np_error (ndarray Z) :=
  reduce_axis4 (λ _ l, count_lane l) a.

(** [majority_fusion(threshold, img, probs)], [img] being a reference:
    the two masked assignments write through it. [probs_result] is a
    float64 array whatever the dtype of [img]. *)
Definition majority_fusion (threshold : V) (img : loc) (probs : option bool)
    (h : heap) : heap * outcome np_error (ndarray Z) :=
  let h := <[img := setitem_mask (ge_scalar (h img) threshold) (of_int 1) (h img)]> h in
  let h := <[img := setitem_mask (lt_scalar (h img) threshold) (of_int 0) (h img)]> h in
  let probs_combined := amap astype_int16 (h img) in
  match sum_axis4 probs_combined with
  | Raise e => (h, Raise e)
  | Ok probs_sum =>
      let probs_result : ndarray float := full (shape probs_sum) (of_int 0) in
      let probs_result :=
        setitem_mask (amap (λ s, 2 <=? s)%Z probs_sum) (of_int 1) probs_result in
      let probs_result :=
        setitem_mask (amap (λ s, s <? 2)%Z probs_sum) (of_int 0) probs_result in
      (h, Ok (amap astype_int16 probs_result))
  end.
End Fusion.

(** What the two masked assignments [a[a >= t] = 1; a[a < t] = 0], made
    one after the other on the same array, do to one element: the second
    test reads what the first assignment left. *)
Definition binarize {V} `{DType V} (t v : V) : V :=
  let v1 := if greater_equal v t then of_int 1 else v in
  if less v1 t then of_int 0 else v1.

(** How many elements of [l] are [>= t]. *)
Definition votes {V} `{DType V} (t : V) (l : list V) : nat :=
  length (List.filter (λ v, greater_equal v t) l).

(** What [majority_fusion] makes of one vote count [s]: an entry of the
    float64 array [probs_result], which starts at 0, is set to 1 where
    [s >= 2], then to 0 where [s < 2], and is cast to int16. *)
Definition vote (s : Z) : Z :=
  let r : float := of_int 0 in
  let r := if (2 <=? s)%Z then of_int 1 else r in
  let r := if (s <? 2)%Z then of_int 0 else r in
  astype_int16 r.

(** Inputs used to run the reducers: one voxel with two classes, the
    scenario values (0.9, 0.1, 0.9) and (0.1, 0.1, 0.9), and one voxel
    whose three directions all hold 2. *)
Definition scenario_Q : ndarray Q :=
  NdArray [1; 1; 1; 2; 3] [9 # 10; 1 # 10; 9 # 10; 1 # 10; 1 # 10; 9 # 10]%Q.

Definition all_two : ndarray float := NdArray [1; 1; 1; 1; 3] [2; 2; 2]%float.

(** The boundary cases: with threshold 0.5, a voxel at (0.5, 0.5, 0.5)
    and one at (0.25, 0.25, 0.75). All these values are exact in float64. *)
Definition boundary : ndarray float :=
  NdArray [1; 1; 1; 2; 3] [0.5; 0.5; 0.5; 0.25; 0.25; 0.75]%float.

(** One voxel, one class, of value 0.1 as float64 has it. *)
Definition tenth : ndarray float := NdArray [1; 1; 1; 1] [0x1.999999999999ap-4]%float.

(** A probability volume of one voxel and two classes. *)
Definition probs_Q : ndarray Q := NdArray [1; 1; 1; 2] [9 # 10; 1 # 10]%Q.

(** Shape and well-formedness of what [mean_fusion] returns, whichever
    of the two kinds of array it is. *)
Definition fused_shape {V} (r : ndarray V + ndarray Z) : list nat :=
  match r with
  | inl a => shape a
  | inr a => shape a
  end.

Definition fused_wf {V} (r : ndarray V + ndarray Z) : Prop :=
  match r with
  | inl a => wf a
  | inr a => wf a
  end.

(** A shape with its fifth axis (axis 4) taken out. *)
Definition drop_axis4 (s : list nat) : list nat := take 4 s ++ drop 5 s.

(** Lines 89 to 94 of [majority_fusion]: the votes counted on the array
    that the masked assignments left. *)
Definition tally {V} `{DType V} (binarized : ndarray V) : outcome np_error (ndarray Z) :=
  let probs_combined := amap astype_int16 binarized in
  match sum_axis4 probs_combined with
  | Raise e => Raise e
  | Ok probs_sum =>
      let probs_result : ndarray float := full (shape probs_sum) (of_int 0) in
      let probs_result :=
        setitem_mask (amap (λ s, 2 <=? s)%Z probs_sum) (of_int 1) probs_result in
      let probs_result :=
        setitem_mask (amap (λ s, s <? 2)%Z probs_sum) (of_int 0) probs_result in
      Ok (amap astype_int16 probs_result)
  end.

(** One voxel, one class, four stacked directions. *)
Definition four_directions : ndarray Q :=
  NdArray [1; 1; 1; 1; 4] [9 # 10; 1 # 10; 9 # 10; 1 # 10]%Q.

(** One voxel whose x-direction value is NaN. *)
Definition with_nan : ndarray float :=
  NdArray [1; 1; 1; 1; 3] [nan; 0.75; 0.25]%float.

(** Two volumes with the two elements of [probs_Q] under other shapes,
    and one with three elements. *)
Definition probs_Q_column : ndarray Q := NdArray [2; 1; 1; 1] [1 # 10; 1 # 10]%Q.
Definition probs_Q_row : ndarray Q := NdArray [1; 2; 1; 1] [9 # 10; 9 # 10]%Q.
Definition probs_Q_three : ndarray Q := NdArray [1; 1; 1; 3] [1 # 10; 1 # 10; 1 # 10]%Q.

(** ** The three-direction runner *)

(** Exceptions that can leave [get_seg_single_img_3_directions]. *)
Inductive exn (E : Type) : Type :=
  | NumPy (e : np_error)
  | UnpackError              (* ValueError of a tuple assignment *)
  | UnboundLocalError        (* a local read before any assignment *)
  | Raised (e : E).          (* raised by a collaborator, passed on *)
Arguments NumPy {E} e.
Arguments UnpackError {E}.
Arguments UnboundLocalError {E}.
Arguments Raised {E} e.

(** The value of an attribute of the configuration object. *)
Inductive attr (O : Type) : Type :=
  | AStr (s : string)
  | AOther (o : O).
Arguments AStr {O} s.
Arguments AOther {O} o.

Section Runner.
(** [V]: dtype of the probability volumes; [E]: what collaborators
    raise; [W]: whatever state the collaborators keep between calls;
    [O]: attribute values other than strings. *)
Context {V E W O Model Data Labels DataManager TrainerT : Type}.

Abbreviation config := (gmap string (attr O)) (only parsing).

(** The collaborators. They are handed the configuration as it is at
    the time of the call, to read it. *)
Context (DataManagerSingleSubjectById :
           config → string → W → W * outcome E DataManager).
Context (DataManagerSingleSubjectByFile :
           config → option Data → W → W * outcome E DataManager).
Context (Trainer : Model → DataManager → W → W * outcome E TrainerT).
Context (get_seg_single_img :
           TrainerT → config → bool → bool → W →
           W * outcome E (ndarray V * Labels)).

(** What the function does that can be seen from outside, in order. *)
Inductive event : Type :=
  | Print (line : string)
  | NewById (hp : config) (subject : string)
  | NewByFile (hp : config) (d : option Data)
  | NewTrainer (m : Model) (dm : DataManager)
  | GetSeg (hp : config) (probs scale : bool)
           (res : outcome E (ndarray V * Labels)).

Record state : Type := State {
  HP : config;              (* the caller's configuration object *)
  world : W;
  trace : list event;
}.

Definition M (A : Type) : Type := state → state * outcome (exn E) A.

Definition ret {A} (a : A) : M A := λ st, (st, Ok a).
Definition raise {A} (x : exn E) : M A := λ st, (st, Raise x).
Definition bind {A B} (m : M A) (k : A → M B) : M B :=
  λ st, match m st with
        | (st', Ok a) => k a st'
        | (st', Raise x) => (st', Raise x)
        end.

Notation "'let*' x ':=' m 'in' k" := (bind m (λ x, k))
  (at level 10, x pattern, m at level 100, k at level 200).

Definition log (ev : event) : M unit :=
  λ st, (State (HP st) (world st) (trace st ++ [ev]), Ok tt).

(** [HP.name = v] *)
Definition setattr (name : string) (v : attr O) : M unit :=
  λ st, (State (<[name := v]> (HP st)) (world st) (trace st), Ok tt).

Definition getHP : M config := λ st, (st, Ok (HP st)).

(** A call of a collaborator: it runs on the world, what it raises is
    passed on. *)
Definition call {A} (f : W → W * outcome E A) : M (outcome E A) :=
  λ st, let '(w, r) := f (world st) in (State (HP st) w (trace st), Ok r).

Definition returned {A} (r : outcome E A) : M A :=
  match r with
  | Ok a => ret a
  | Raise e => raise (Raised e)
  end.

Definition numpy {A} (r : outcome np_error A) : M A :=
  match r with
  | Ok a => ret a
  | Raise e => raise (NumPy e)
  end.

(** Python truth value of [subject]: [None] and the empty string are
    false. *)
Definition truthy (subject : option string) : option string :=
  match subject with
  | Some s => if decide (s = "") then None else Some s
  | None => None
  end.

(** The body of the loop over [enumerate(directions)]; it yields the
    values bound to [img_probs] and [img_y]. *)
Definition process_direction (model : Model) (subject : option string)
    (d : option Data) (scale_to_world_shape : bool)
    (idx : nat) (direction : string) : M (ndarray V * Labels) :=
  let* _ := setattr "SLICE_DIRECTION" (AStr direction) in
  let* _ := log (Print ("Processing direction (" +:+ pretty (idx + 1) +:+ " of 3)")) in
  let* dataManagerSingle :=
    match truthy subject with
    | Some s =>
        let* hp := getHP in
        let* _ := log (NewById hp s) in
        let* r := call (DataManagerSingleSubjectById hp s) in
        returned r
    | None =>
        let* hp := getHP in
        let* _ := log (NewByFile hp d) in
        let* r := call (DataManagerSingleSubjectByFile hp d) in
        returned r
    end in
  let* _ := log (NewTrainer model dataManagerSingle) in
  let* r := call (Trainer model dataManagerSingle) in
  let* trainerSingle := returned r in
  let* hp := getHP in
  let* r := call (get_seg_single_img trainerSingle hp true scale_to_world_shape) in
  let* _ := log (GetSeg hp true scale_to_world_shape r) in
  returned r.

(** The loop: [prob_slices] grows, [img_y] is rebound at each turn. *)
Fixpoint for_directions (model : Model) (subject : option string)
    (d : option Data) (scale : bool) (idx : nat) (directions : list string)
    (prob_slices : list (ndarray V)) (img_y : option Labels)
    : M (list (ndarray V) * option Labels) :=
  match directions with
  | [] => ret (prob_slices, img_y)
  | direction :: rest =>
      let* (img_probs, y) := process_direction model subject d scale idx direction in
      for_directions model subject d scale (S idx) rest
        (prob_slices ++ [img_probs]) (Some y)
  end.

(** Lines 55 to 61: the three volumes get a trailing axis of length 1
    and are joined along it. *)
Definition stack_directions (prob_slices : list (ndarray V))
    : outcome (exn E) (ndarray V) :=
  match prob_slices with
  | [probs_x; probs_y; probs_z] =>
      let new_shape := shape probs_x ++ [1] in
      match reshape probs_x new_shape with
      | Raise e => Raise (NumPy e)
      | Ok probs_x =>
      match reshape probs_y new_shape with
      | Raise e => Raise (NumPy e)
      | Ok probs_y =>
      match reshape probs_z new_shape with
      | Raise e => Raise (NumPy e)
      | Ok probs_z =>
      match concatenate_axis4 [probs_x; probs_y; probs_z] with
      | Raise e => Raise (NumPy e)
      | Ok probs_combined => Ok probs_combined
      end end end end
  | _ => Raise UnpackError
  end.

(** Lines 39 to 62: what the function does once [Trainer] is there. *)
Definition get_seg_single_img_3_directions (model : Model)
    (subject : option string) (d : option Data) (scale_to_world_shape : bool)
    : M (ndarray V * Labels) :=
  let directions := ["x"; "y"; "z"] in
  let* (prob_slices, img_y) :=
    for_directions model subject d scale_to_world_shape 0 directions [] None in
  let* probs_combined := (λ st, (st, stack_directions prob_slices)) in
  match img_y with
  | Some img_y => ret (probs_combined, img_y)
  | None => raise UnboundLocalError
  end.
End Runner.

(** The whole call, from its first statement. Line 37,
    [from tractseg.libs.Trainer import Trainer], runs on every call and
    before anything else: the import works on the state of the
    interpreter, which is part of [W], and either raises or yields the
    class [Trainer] that the turns of the loop then call. *)
Section Call.
Context {V E W O Model Data Labels DataManager TrainerT : Type}.
Context (import_Trainer :
           W → W * outcome E (Model → DataManager → W → W * outcome E TrainerT)).
Context (DataManagerSingleSubjectById :
           gmap string (attr O) → string → W → W * outcome E DataManager).
Context (DataManagerSingleSubjectByFile :
           gmap string (attr O) → option Data → W → W * outcome E DataManager).
Context (get_seg_single_img :
           TrainerT → gmap string (attr O) → bool → bool → W →
           W * outcome E (ndarray V * Labels)).

Definition get_seg_single_img_3_directions_call (model : Model)
    (subject : option string) (d : option Data) (scale_to_world_shape : bool)
    : M (ndarray V * Labels) :=
  bind (call import_Trainer) (λ r,
  bind (returned r) (λ Trainer,
    get_seg_single_img_3_directions
      DataManagerSingleSubjectById DataManagerSingleSubjectByFile Trainer
      get_seg_single_img model subject d scale_to_world_shape)).
End Call.

(** Readings of a trace: the inference calls with the configuration they
    were given and what they returned, and the data-access calls. *)
Section Traces.
Context {V E O Model Data Labels DataManager : Type}.
Abbreviation event' :=
  (event (V:=V) (E:=E) (O:=O) (Model:=Model) (Data:=Data) (Labels:=Labels)
         (DataManager:=DataManager)) (only parsing).

Definition inferences (evs : list event')
    : list (gmap string (attr O) * bool * bool * outcome E (ndarray V * Labels)) :=
  omap (λ ev, match ev with
              | GetSeg hp probs scale res => Some (hp, probs, scale, res)
              | _ => None
              end) evs.

Definition by_id_calls (evs : list event') : list (gmap string (attr O) * string) :=
  omap (λ ev, match ev with NewById hp s => Some (hp, s) | _ => None end) evs.

Definition by_file_calls (evs : list event')
    : list (gmap string (attr O) * option Data) :=
  omap (λ ev, match ev with NewByFile hp d => Some (hp, d) | _ => None end) evs.

(** The progress notices printed, one at the start of each turn. *)
Definition notices (evs : list event') : list string :=
  omap (λ ev, match ev with Print line => Some line | _ => None end) evs.
End Traces.

(** Stub collaborators to run the runner on: each call notes itself in
    the world, and inference returns a volume and a label that tell the
    direction it found in the configuration. *)
Module Stub.
Definition direction_of (hp : gmap string (attr unit)) : string :=
  match hp !! "SLICE_DIRECTION" with
  | Some (AStr dir) => dir
  | _ => "?"
  end.

Definition by_id (hp : gmap string (attr unit)) (s : string) (w : list string)
    : list string * outcome string string :=
  (w ++ ["by_id " +:+ direction_of hp], Ok ("id:" +:+ s)).

Definition by_file (hp : gmap string (attr unit)) (d : option (ndarray Q))
    (w : list string) : list string * outcome string string :=
  (w ++ ["by_file " +:+ direction_of hp], Ok "file").

Definition trainer (m : unit) (dm : string) (w : list string)
    : list string * outcome string string :=
  (w ++ ["trainer"], Ok dm).

Definition volume (dir : string) : ndarray Q :=
  if decide (dir = "x") then NdArray [1; 1; 1; 2] [9 # 10; 1 # 10]%Q
  else if decide (dir = "y") then NdArray [1; 1; 1; 2] [1 # 10; 1 # 10]%Q
  else NdArray [1; 1; 1; 2] [9 # 10; 9 # 10]%Q.

Definition get_seg (tr : string) (hp : gmap string (attr unit))
    (probs scale : bool) (w : list string)
    : list string * outcome string (ndarray Q * string) :=
  (w ++ ["get_seg " +:+ direction_of hp],
   Ok (volume (direction_of hp), "labels-" +:+ direction_of hp)).

Definition HP0 : gmap string (attr unit) :=
  {[ "SLICE_DIRECTION" := AStr "y"; "BATCH_SIZE" := AOther tt ]}.

Definition st0
    : state (V:=Q) (E:=string) (W:=list string) (O:=unit) (Model:=unit)
            (Data:=ndarray Q) (Labels:=string) (DataManager:=string) :=
  State HP0 [] [].

Abbreviation run subject d :=
  (get_seg_single_img_3_directions by_id by_file trainer get_seg tt subject d true st0).

(** The import of a module that is there: it yields the class. *)
Definition import_Trainer (w : list string)
    : list string *
      outcome string (unit → string → list string → list string * outcome string string) :=
  (w, Ok trainer).

Abbreviation call subject d :=
  (get_seg_single_img_3_directions_call import_Trainer by_id by_file get_seg
     tt subject d true st0).
End Stub.

(** The inference calls of a trace that returned, with what they returned. *)
Definition succeeded {V E O Model Data Labels DataManager : Type}
    (evs : list (event (V:=V) (E:=E) (O:=O) (Model:=Model) (Data:=Data)
                   (Labels:=Labels) (DataManager:=DataManager)))
    : list (ndarray V * Labels) :=
  omap (λ i : gmap string (attr O) * bool * bool * outcome E (ndarray V * Labels),
          match i.2 with
          | Ok r => Some r
          | Raise _ => None
          end) (inferences evs).

(** Stub collaborators of which inference fails in direction y. *)
Module FailingStub.
Definition get_seg (tr : string) (hp : gmap string (attr unit))
    (probs scale : bool) (w : list string)
    : list string * outcome string (ndarray Q * string) :=
  if decide (Stub.direction_of hp = "y")
  then (w ++ ["get_seg y fails"], Raise "out of memory")
  else Stub.get_seg tr hp probs scale w.

Abbreviation run subject d :=
  (get_seg_single_img_3_directions Stub.by_id Stub.by_file Stub.trainer get_seg
     tt subject d true Stub.st0).

Abbreviation call subject d :=
  (get_seg_single_img_3_directions_call Stub.import_Trainer Stub.by_id Stub.by_file
     get_seg tt subject d true Stub.st0).
End FailingStub.

(** Stub collaborators of which the module of [Trainer] is missing. *)
Module NoTrainer.
Definition import_Trainer (w : list string)
    : list string *
      outcome string (unit → string → list string → list string * outcome string string) :=
  (w, Raise "No module named tractseg.libs.Trainer").

Abbreviation call subject d :=
  (get_seg_single_img_3_directions_call import_Trainer Stub.by_id Stub.by_file
     Stub.get_seg tt subject d true Stub.st0).
End NoTrainer.

(** ** The order of float64 values *)

(** A float64 that is not NaN, as a triple of integers that compare
    lexicographically the way IEEE 754 compares the values: the kind
    and sign first, then the exponent, then the mantissa. *)
Definition SFkey (a : spec_float) : Z * Z * Z :=
  match a with
  | S754_infinity true => (0, 0, 0)
  | S754_finite true m e => (1, - e, Z.neg m)
  | S754_zero _ => (2, 0, 0)
  | S754_finite false m e => (3, e, Z.pos m)
  | S754_infinity false => (4, 0, 0)
  | S754_nan => (5, 0, 0)
  end%Z.

Definition key_le (k1 k2 : Z * Z * Z) : Prop :=
  (k1.1.1 < k2.1.1 ∨
   (k1.1.1 = k2.1.1 ∧ (k1.1.2 < k2.1.2 ∨ (k1.1.2 = k2.1.2 ∧ k1.2 ≤ k2.2))))%Z.

(** Whether a rounding step has left something out: 1 if so, else 0. *)
Definition inexact (l : location) : Z :=
  match l with
  | loc_Exact => 0%Z
  | loc_Inexact _ => 1%Z
  end.

(** A float64 that is a zero or a positive finite number of value
    m * 2 ^ e at most [K], both counted in units of 2 ^ -1074. *)
Definition SF_at_most (K : Z) (x : spec_float) : Prop :=
  match x with
  | S754_zero _ => True
  | S754_finite false m e =>
      (-1074 ≤ e ∧ Z.pos m * 2 ^ (e + 1074) ≤ K * 2 ^ 1074)%Z
  | _ => False
  end.

(** A value that lies in [0, 1]. *)
Definition probability {V} `{DType V} (v : V) : Prop :=
  greater_equal v (of_int 0) = true ∧ greater_equal (of_int 1) v = true.

(** One voxel with four classes, in float64: (0.7, 0.7, 0.7), whose
    mean is rounded below 0.7, then (1, 1, 1), (0.25, 0.5, 1) and
    (0.25, 0.75, 1). *)
Definition probabilities : ndarray float :=
  NdArray [1; 1; 1; 4; 3]
    [0x1.6666666666666p-1; 0x1.6666666666666p-1; 0x1.6666666666666p-1;
     1; 1; 1; 0.25; 0.5; 1; 0.25; 0.75; 1]%float.

(** One voxel, one class, five stacked directions, in float64. *)
Definition five_directions : ndarray float :=
  NdArray [1; 1; 1; 1; 5] [0.5; 0.25; 0.75; 1; 0.5]%float.

(** * Properties *)

(** ** Arrays *)

Lemma in_bounds_4 X Y Z C x y z c :
  x < X → y < Y → z < Z → c < C → in_bounds [X; Y; Z; C] [x; y; z; c] = true.
Proof.
  intros. simpl. rewrite !andb_true_r, !andb_true_iff, !Nat.ltb_lt. auto.
Qed.

Lemma ravel_4_lt X Y Z C x y z c :
  x < X → y < Y → z < Z → c < C →
  ravel [X; Y; Z; C] [x; y; z; c] < X * Y * Z * C.
Proof.
  intros Hx Hy Hz Hc. unfold ravel. simpl.
  assert (x * Y + y < X * Y) by nia.
  assert ((x * Y + y) * Z + z < X * Y * Z) by nia.
  nia.
Qed.

Lemma item_4 {V} (a : ndarray V) X Y Z C x y z c :
  shape a = [X; Y; Z; C] → x < X → y < Y → z < Z → c < C →
  item a [x; y; z; c] = data a !! ravel [X; Y; Z; C] [x; y; z; c].
Proof.
  intros Hs Hx Hy Hz Hc. unfold item. rewrite Hs, in_bounds_4; auto.
Qed.

Lemma item_5 {V} (a : ndarray V) X Y Z C N x y z c k :
  shape a = [X; Y; Z; C; N] → x < X → y < Y → z < Z → c < C → k < N →
  item a [x; y; z; c; k] = data a !! (ravel [X; Y; Z; C] [x; y; z; c] * N + k).
Proof.
  intros Hs Hx Hy Hz Hc Hk. unfold item. rewrite Hs.
  assert (Hb : in_bounds [X; Y; Z; C; N] [x; y; z; c; k] = true).
  { simpl. rewrite !andb_true_r, !andb_true_iff, !Nat.ltb_lt. auto. }
  rewrite Hb. reflexivity.
Qed.

Lemma item_amap {V R} (f : V → R) (a : ndarray V) idx :
  item (amap f a) idx = f <$> item a idx.
Proof.
  unfold item, amap. simpl. destruct (in_bounds (shape a) idx); [|done].
  apply list_lookup_fmap.
Qed.

Lemma setitem_mask_amap {V} (f : V → bool) (c : V) (a : ndarray V) :
  setitem_mask (amap f a) c a = amap (λ v, if f v then c else v) a.
Proof.
  unfold setitem_mask, amap. simpl. f_equal.
  rewrite zip_with_fmap_l, zip_with_diag. reflexivity.
Qed.

Lemma bind_unit_axis {A B} (g : A → nat → B) (l : list A) :
  (p ← l; q ← seq 0 1; [g p q]) = (λ p, g p 0) <$> l.
Proof.
  induction l as [|p l IH]; [done|]. cbn. f_equal; exact IH.
Qed.

Lemma reduce_axis4_5d {V R} (f : nat → list V → R) (a : ndarray V) X Y Z C N :
  shape a = [X; Y; Z; C; N] →
  reduce_axis4 f a =
    Ok (NdArray [X; Y; Z; C]
          ((λ p, f N (lane (data a) N 1 p 0)) <$> seq 0 (X * Y * Z * C))).
Proof.
  intros Hs. unfold reduce_axis4. rewrite Hs. simpl size_of.
  by rewrite bind_unit_axis.
Qed.

Lemma lane_3 {V} (d : list V) p v0 v1 v2 :
  d !! (p * 3 + 0) = Some v0 → d !! (p * 3 + 1) = Some v1 →
  d !! (p * 3 + 2) = Some v2 →
  lane d 3 1 p 0 = [v0; v1; v2].
Proof.
  intros H0 H1 H2. unfold lane. simpl.
  rewrite !Nat.mul_1_r, !Nat.add_0_r in *.
  by rewrite H0, H1, H2.
Qed.

Lemma lookup_fmap_seq {R} (g : nat → R) n p :
  p < n → (g <$> seq 0 n) !! p = Some (g p).
Proof.
  intros Hp. rewrite list_lookup_fmap, lookup_seq_lt by done. reflexivity.
Qed.

(** ** Mean fusion *)

Section MeanFusionFacts.
Context {V : Type} `{DType V}.

Lemma two_masked_assignments (t : V) (a : ndarray V) :
  let a1 := setitem_mask (ge_scalar a t) (of_int 1) a in
  setitem_mask (lt_scalar a1 t) (of_int 0) a1 = amap (binarize t) a.
Proof.
  unfold ge_scalar, lt_scalar. cbv zeta.
  rewrite !setitem_mask_amap. unfold amap. simpl. f_equal.
  rewrite <- list_fmap_compose. reflexivity.
Qed.

Lemma mean_fusion_probs (t : V) (img : ndarray V) :
  mean_fusion t img true =
    match mean_axis4 img with
    | Ok probs_mean => Ok (inl probs_mean)
    | Raise e => Raise e
    end.
Proof. reflexivity. Qed.

Lemma mean_fusion_binary (t : V) (img : ndarray V) X Y Z C N :
  shape img = [X; Y; Z; C; N] →
  mean_fusion t img false =
    Ok (inr (NdArray [X; Y; Z; C]
               ((λ p, astype_int16 (binarize t (mean_lane N (lane (data img) N 1 p 0))))
                  <$> seq 0 (X * Y * Z * C)))).
Proof.
  intros Hs. unfold mean_fusion, mean_axis4.
  rewrite (reduce_axis4_5d _ _ _ _ _ _ _ Hs). simpl negb. cbv iota.
  rewrite two_masked_assignments. unfold amap. simpl.
  rewrite <- !list_fmap_compose. reflexivity.
Qed.

Context `{!TotalOrderDType V}.

Lemma binarize_total (t v : V) :
  binarize t v =
    if greater_equal v t && negb (less (of_int 1) t) then of_int 1 else of_int 0.
Proof.
  unfold binarize. destruct (greater_equal v t) eqn:Hge; simpl.
  - destruct (less (of_int 1) t); reflexivity.
  - rewrite less_greater_equal, Hge. reflexivity.
Qed.

Lemma astype_binarize (t v : V) :
  astype_int16 (binarize t v) =
    if greater_equal v t && negb (less (of_int 1) t) then 1%Z else 0%Z.
Proof.
  rewrite binarize_total.
  destruct (greater_equal v t && negb (less (of_int 1) t));
    [apply astype_int16_1 | apply astype_int16_0].
Qed.

Lemma binarize_above_one (t v : V) :
  less (of_int 1) t = true → astype_int16 (binarize t v) = 0%Z.
Proof.
  intros Ht. rewrite astype_binarize, Ht, andb_false_r. reflexivity.
Qed.
End MeanFusionFacts.

Lemma lane_of_voxel {V} (img : ndarray V) X Y Z C x y z c :
  shape img = [X; Y; Z; C; 3] → wf img →
  x < X → y < Y → z < Z → c < C →
  ∃ v0 v1 v2,
    item img [x; y; z; c; 0] = Some v0 ∧
    item img [x; y; z; c; 1] = Some v1 ∧
    item img [x; y; z; c; 2] = Some v2 ∧
    lane (data img) 3 1 (ravel [X; Y; Z; C] [x; y; z; c]) 0 = [v0; v1; v2].
Proof.
  intros Hs Hwf Hx Hy Hz Hc.
  pose proof (ravel_4_lt X Y Z C x y z c Hx Hy Hz Hc) as Hp.
  set (p := ravel [X; Y; Z; C] [x; y; z; c]) in *.
  unfold wf in Hwf. rewrite Hs in Hwf. simpl in Hwf.
  destruct (lookup_lt_is_Some_2 (data img) (p * 3 + 0)) as [v0 H0]; [nia|].
  destruct (lookup_lt_is_Some_2 (data img) (p * 3 + 1)) as [v1 H1]; [nia|].
  destruct (lookup_lt_is_Some_2 (data img) (p * 3 + 2)) as [v2 H2]; [nia|].
  exists v0, v1, v2.
  rewrite !(item_5 img X Y Z C 3) by (auto; lia). fold p.
  repeat split; auto using lane_3.
Qed.

Lemma fmap_const {A R} (g : A → R) (c : R) (l : list A) :
  (∀ p, g p = c) → g <$> l = replicate (length l) c.
Proof.
  intros Hg. induction l as [|a l IH]; [done|].
  cbn. rewrite Hg. f_equal; exact IH.
Qed.

Lemma size_of_4 X Y Z C : size_of [X; Y; Z; C] = X * Y * Z * C.
Proof. simpl. lia. Qed.

(** On an element type with a total order (exact arithmetic), whatever
    the values of the volume: the entry of a voxel is 1 exactly when its
    mean is [>= t] and 1 is not below [t], the second masked assignment
    testing again what the first has written. *)
Lemma mean_fusion_binary_total_order {V : Type} `{TotalOrderDType V}
    (t : V) (img : ndarray V) (nx ny nz nc : nat) :
  shape img = [nx; ny; nz; nc; 3] → wf img →
  ∃ r : ndarray Z,
    mean_fusion t img false = Ok (inr r) ∧ shape r = [nx; ny; nz; nc] ∧ wf r ∧
    ∀ x y z c, x < nx → y < ny → z < nz → c < nc →
      ∃ v0 v1 v2 e,
        item img [x; y; z; c; 0] = Some v0 ∧
        item img [x; y; z; c; 1] = Some v1 ∧
        item img [x; y; z; c; 2] = Some v2 ∧
        item r [x; y; z; c] = Some e ∧
        (e = 0%Z ∨ e = 1%Z) ∧
        (e = 1%Z ↔
           greater_equal (mean_lane 3 [v0; v1; v2]) t = true ∧
           less (of_int 1) t = false).
Proof.
  intros Hs Hwf. eexists. split; [apply (mean_fusion_binary _ _ _ _ _ _ _ Hs)|].
  split; [reflexivity|]. split.
  { unfold wf. simpl data. simpl shape.
    rewrite length_fmap, length_seq, size_of_4. reflexivity. }
  intros x y z c Hx Hy Hz Hc.
  destruct (lane_of_voxel img nx ny nz nc x y z c Hs Hwf Hx Hy Hz Hc)
    as (v0 & v1 & v2 & Hv0 & Hv1 & Hv2 & Hl).
  exists v0, v1, v2. eexists. repeat (split; [eassumption|]).
  rewrite (item_4 _ nx ny nz nc) by auto. simpl data.
  rewrite lookup_fmap_seq by (apply ravel_4_lt; auto).
  rewrite Hl, astype_binarize. split; [reflexivity|].
  destruct (greater_equal (mean_lane 3 [v0; v1; v2]) t);
    destruct (less (of_int 1) t); simpl; intuition congruence.
Qed.

(** Exact rationals are a total order. *)
#[export] Instance Q_total_order : TotalOrderDType Q.
Proof.
  split.
  - intros x y. cbn. unfold Qlt_bool, Qle_bool. apply Z.ltb_antisym.
  - reflexivity.
  - reflexivity.
Qed.

(** The scenario of the specification: with threshold 1/2 the voxel
    (0.9, 0.1, 0.9) gives 1 and (0.1, 0.1, 0.9) gives 0. *)
Example mean_fusion_scenario :
  mean_fusion (1 # 2)%Q scenario_Q false = Ok (inr (NdArray [1; 1; 1; 2] [1; 0]%Z)).
Proof. reflexivity. Qed.



(** ** Majority fusion *)

Lemma vote_spec (s : Z) : vote s = if (2 <=? s)%Z then 1%Z else 0%Z.
Proof.
  unfold vote. destruct (2 <=? s)%Z eqn:H2; destruct (s <? 2)%Z eqn:Hlt;
    try lia; vm_compute; reflexivity.
Qed.

Lemma lane_fmap {A B} (f : A → B) (d : list A) n inner p q :
  lane (f <$> d) n inner p q = f <$> lane d n inner p q.
Proof.
  unfold lane. rewrite list_fmap_omap. apply list_omap_ext.
  apply Forall2_same_length_lookup_2; [done|].
  intros i k1 k2 Hk1 Hk2. rewrite list_lookup_fmap. congruence.
Qed.

Section MajorityFusionFacts.
Context {V : Type} `{DType V}.
Implicit Types h : positive → ndarray V.

(** The array behind [img] once the call is over, whether it returned
    or raised. *)
Lemma majority_fusion_heap_img t img probs h :
  (majority_fusion t img probs h).1 img = amap (binarize t) (h img).
Proof.
  unfold majority_fusion.
  destruct (sum_axis4 _); simpl; rewrite !fn_lookup_insert;
    apply two_masked_assignments.
Qed.

Lemma majority_fusion_heap_other t img probs h l :
  l ≠ img → (majority_fusion t img probs h).1 l = h l.
Proof.
  intros Hl. unfold majority_fusion.
  destruct (sum_axis4 _); simpl; rewrite !fn_lookup_insert_ne; auto.
Qed.

Lemma majority_fusion_result t img probs h X Y Z C N :
  shape (h img) = [X; Y; Z; C; N] →
  (majority_fusion t img probs h).2 =
    Ok (NdArray [X; Y; Z; C]
          ((λ p, vote (count_lane
                   ((λ v, astype_int16 (binarize t v)) <$>
                      lane (data (h img)) N 1 p 0)))
             <$> seq 0 (X * Y * Z * C))).
Proof.
  intros Hs. unfold majority_fusion. rewrite !fn_lookup_insert.
  rewrite two_masked_assignments. unfold sum_axis4.
  rewrite (reduce_axis4_5d _ _ X Y Z C N) by exact Hs.
  cbv zeta. unfold snd. f_equal.
  unfold setitem_mask, amap, full. simpl shape. simpl data. f_equal.
  rewrite !zip_with_fmap_l.
  rewrite zip_with_replicate_r_eq by (rewrite length_seq; lia).
  rewrite zip_with_fmap_r, zip_with_diag, <- !list_fmap_compose.
  apply list_fmap_ext. intros _ p _. simpl.
  rewrite lane_fmap. reflexivity.
Qed.
End MajorityFusionFacts.

Lemma count_lane_3 (b0 b1 b2 : bool) :
  let bit (b : bool) := if b then 1%Z else 0%Z in
  vote (count_lane [bit b0; bit b1; bit b2]) =
    if (b0 && b1) || (b0 && b2) || (b1 && b2) then 1%Z else 0%Z.
Proof. destruct b0, b1, b2; vm_compute; reflexivity. Qed.

Lemma votes_3 {V : Type} `{DType V} (t v0 v1 v2 : V) :
  let b0 := greater_equal v0 t in
  let b1 := greater_equal v1 t in
  let b2 := greater_equal v2 t in
  2 ≤ votes t [v0; v1; v2] ↔ (b0 && b1) || (b0 && b2) || (b1 && b2) = true.
Proof.
  unfold votes. simpl.
  destruct (greater_equal v0 t), (greater_equal v1 t), (greater_equal v2 t);
    simpl; split; (lia || congruence).
Qed.

(** On an element type with a total order (exact arithmetic), whatever
    the values of the volume: the entry of a voxel is 1 exactly when at
    least two of its three values are [>= t] and 1 is not below [t]. *)
Lemma majority_fusion_total_order {V : Type} `{TotalOrderDType V}
    (t : V) (img : positive) (probs : option bool) (h : positive → ndarray V)
    (nx ny nz nc : nat) :
  shape (h img) = [nx; ny; nz; nc; 3] → wf (h img) →
  ∃ r : ndarray Z,
    (majority_fusion t img probs h).2 = Ok r ∧
    shape r = [nx; ny; nz; nc] ∧ wf r ∧
    ∀ x y z c, x < nx → y < ny → z < nz → c < nc →
      ∃ v0 v1 v2 e,
        item (h img) [x; y; z; c; 0] = Some v0 ∧
        item (h img) [x; y; z; c; 1] = Some v1 ∧
        item (h img) [x; y; z; c; 2] = Some v2 ∧
        item r [x; y; z; c] = Some e ∧
        (e = 0%Z ∨ e = 1%Z) ∧
        (e = 1%Z ↔ 2 ≤ votes t [v0; v1; v2] ∧ less (of_int 1) t = false).
Proof.
  intros Hs Hwf. eexists.
  split; [apply (majority_fusion_result _ _ _ _ _ _ _ _ _ Hs)|].
  split; [reflexivity|]. split.
  { unfold wf. simpl data. simpl shape.
    rewrite length_fmap, length_seq, size_of_4. reflexivity. }
  intros x y z c Hx Hy Hz Hc.
  destruct (lane_of_voxel (h img) nx ny nz nc x y z c Hs Hwf Hx Hy Hz Hc)
    as (v0 & v1 & v2 & Hv0 & Hv1 & Hv2 & Hl).
  exists v0, v1, v2. eexists. repeat (split; [eassumption|]).
  rewrite (item_4 _ nx ny nz nc) by auto. simpl data.
  rewrite lookup_fmap_seq by (apply ravel_4_lt; auto).
  rewrite Hl. split; [reflexivity|].
  rewrite votes_3. simpl fmap. rewrite !astype_binarize.
  destruct (less (of_int 1) t).
  - rewrite !andb_false_r. change (vote (count_lane [0; 0; 0]%Z)) with 0%Z.
    intuition congruence.
  - rewrite !andb_true_r.
    rewrite (count_lane_3 (greater_equal v0 t) (greater_equal v1 t)
               (greater_equal v2 t)).
    destruct (greater_equal v0 t && greater_equal v1 t
              || greater_equal v0 t && greater_equal v2 t
              || greater_equal v1 t && greater_equal v2 t);
      intuition congruence.
Qed.

(** The scenario of the specification: with threshold 1/2, (0.9, 0.1, 0.9)
    has two votes and gives 1, (0.1, 0.1, 0.9) has one and gives 0. *)
Example majority_fusion_scenario :
  (majority_fusion (1 # 2)%Q 1%positive None (λ _, scenario_Q)).2
  = Ok (NdArray [1; 1; 1; 2] [1; 0]%Z).
Proof. reflexivity. Qed.

Lemma vote_entries_binary (m1 m2 : list bool) (zeros : list float) :
  Forall (λ v, v = f64_of_int 0) zeros →
  Forall (λ e, e = 0%Z ∨ e = 1%Z)
    (f64_astype_int16 <$>
       zip_with (λ (m : bool) v, if m then f64_of_int 0 else v) m2
         (zip_with (λ (m : bool) v, if m then f64_of_int 1 else v) m1 zeros)).
Proof.
  intros Hz. apply Forall_fmap.
  apply (Forall_zip_with_snd _ (λ v, v = f64_of_int 0 ∨ v = f64_of_int 1)).
  - apply Forall_forall. intros m _ v [-> | ->]; destruct m; simpl;
      (left; vm_compute; reflexivity) || (right; vm_compute; reflexivity).
  - apply (Forall_zip_with_snd _ (λ v, v = f64_of_int 0)); [|exact Hz].
    apply Forall_forall. intros m _ v ->. destruct m; auto.
Qed.

(** C6. The third parameter of [majority_fusion] plays no part: whatever
    two values it is given, the call leaves the same heap and returns the
    same outcome; and whenever the call returns, every entry of the
    returned array is 0 or 1. There is no continuous output. *)
Theorem majority_fusion_ignores_probs {V : Type} `{DType V}
    (t : V) (img : positive) (h : positive → ndarray V)
    (probs1 probs2 : option bool) :
  majority_fusion t img probs1 h = majority_fusion t img probs2 h ∧
  ∀ r, (majority_fusion t img probs1 h).2 = Ok r →
       Forall (λ e, e = 0%Z ∨ e = 1%Z) (data r).
Proof.
  split; [reflexivity|].
  unfold majority_fusion. destruct (sum_axis4 _) as [probs_sum|e]; [|discriminate].
  cbv zeta. intros r [= <-]. unfold amap, setitem_mask, full. simpl data.
  apply vote_entries_binary, Forall_replicate. reflexivity.
Qed.

(** ** Stacking the three directions *)

Lemma take_1_drop {V} (d : list V) p v :
  d !! p = Some v → take 1 (drop p d) = [v].
Proof. intros Hp. rewrite (drop_S _ _ _ Hp). reflexivity. Qed.

Lemma lookup_bind_chunks {V} (f : nat → list V) (c n s i k : nat) :
  (∀ p, s ≤ p < s + n → length (f p) = c) → i < n → k < c →
  (seq s n ≫= f) !! (i * c + k) = f (s + i) !! k.
Proof.
  revert s i. induction n as [|n IH]; intros s i Hlen Hi Hk; [lia|].
  cbn. destruct i as [|i].
  - rewrite Nat.add_0_r. simpl. apply lookup_app_l. rewrite Hlen; lia.
  - rewrite lookup_app_r by (rewrite Hlen; lia).
    rewrite Hlen by lia.
    replace (S i * c + k - c) with (i * c + k) by lia.
    rewrite IH by (try lia; intros p Hp; apply Hlen; lia).
    f_equal. f_equal. lia.
Qed.

Lemma length_bind_chunks {V} (f : nat → list V) (c n s : nat) :
  (∀ p, s ≤ p < s + n → length (f p) = c) → length (seq s n ≫= f) = n * c.
Proof.
  revert s. induction n as [|n IH]; intros s Hlen; [done|].
  cbn. rewrite length_app, Hlen by lia.
  rewrite IH by (intros p Hp; apply Hlen; lia). reflexivity.
Qed.

Lemma reshape_trailing_1 {V} (a : ndarray V) (s : list nat) :
  wf a → shape a = s → reshape a (s ++ [1]) = Ok (NdArray (s ++ [1]) (data a)).
Proof.
  intros Hwf <-. unfold reshape.
  assert (size_of (shape a ++ [1]) = length (data a)) as ->.
  { rewrite Hwf. unfold size_of. rewrite foldr_app. reflexivity. }
  by rewrite Nat.eqb_refl.
Qed.

Lemma stack_directions_ok {V E} (px py pz : ndarray V) X Y Z C :
  shape px = [X; Y; Z; C] → shape py = [X; Y; Z; C] → shape pz = [X; Y; Z; C] →
  wf px → wf py → wf pz →
  ∃ stk,
    stack_directions (E:=E) [px; py; pz] = Ok stk ∧
    shape stk = [X; Y; Z; C; 3] ∧ wf stk ∧
    ∀ p, p < X * Y * Z * C →
      data stk !! (p * 3 + 0) = data px !! p ∧
      data stk !! (p * 3 + 1) = data py !! p ∧
      data stk !! (p * 3 + 2) = data pz !! p.
Proof.
  intros Hx Hy Hz Wx Wy Wz. unfold stack_directions.
  rewrite Hx.
  rewrite (reshape_trailing_1 px _ Wx Hx), (reshape_trailing_1 py _ Wy Hy),
          (reshape_trailing_1 pz _ Wz Hz).
  unfold concatenate_axis4. simpl shape.
  simpl app. simpl forallb. unfold same_but_axis4.
  rewrite bool_decide_eq_true_2 by done. simpl andb. cbv iota.
  unfold wf in Wx, Wy, Wz. rewrite Hx in Wx. rewrite Hy in Wy. rewrite Hz in Wz.
  rewrite size_of_4 in Wx, Wy, Wz.
  set (f := λ p : nat, _ ≫= _).
  assert (Hf : ∀ p, p < X * Y * Z * C →
            ∃ vx vy vz, data px !! p = Some vx ∧ data py !! p = Some vy ∧
                        data pz !! p = Some vz ∧ f p = [vx; vy; vz]).
  { intros p Hp.
    destruct (lookup_lt_is_Some_2 (data px) p) as [vx Hvx]; [lia|].
    destruct (lookup_lt_is_Some_2 (data py) p) as [vy Hvy]; [lia|].
    destruct (lookup_lt_is_Some_2 (data pz) p) as [vz Hvz]; [lia|].
    exists vx, vy, vz. repeat (split; [assumption|]).
    unfold f. cbn. rewrite !Nat.mul_1_r.
    by rewrite (take_1_drop _ _ _ Hvx), (take_1_drop _ _ _ Hvy),
               (take_1_drop _ _ _ Hvz). }
  assert (Hlen : ∀ p, 0 ≤ p < 0 + X * Y * Z * C → length (f p) = 3).
  { intros p Hp. destruct (Hf p) as (? & ? & ? & _ & _ & _ & ->); [lia|done]. }
  eexists. split; [reflexivity|]. split; [reflexivity|]. split.
  - unfold wf. simpl data. simpl shape.
    rewrite (length_bind_chunks f 3) by exact Hlen. simpl. lia.
  - intros p Hp. destruct (Hf p Hp) as (vx & vy & vz & Hvx & Hvy & Hvz & Hfp).
    simpl data.
    rewrite !(lookup_bind_chunks f 3) by (auto; lia).
    simpl. rewrite Hfp, Hvx, Hvy, Hvz. auto.
Qed.

Lemma item_stack_directions {V E} (px py pz stk : ndarray V) X Y Z C x y z c :
  shape px = [X; Y; Z; C] → shape py = [X; Y; Z; C] → shape pz = [X; Y; Z; C] →
  wf px → wf py → wf pz →
  stack_directions (E:=E) [px; py; pz] = Ok stk →
  x < X → y < Y → z < Z → c < C →
  item stk [x; y; z; c; 0] = item px [x; y; z; c] ∧
  item stk [x; y; z; c; 1] = item py [x; y; z; c] ∧
  item stk [x; y; z; c; 2] = item pz [x; y; z; c].
Proof.
  intros Hx Hy Hz Wx Wy Wz Hstk Bx By Bz Bc.
  destruct (stack_directions_ok (E:=E) px py pz X Y Z C Hx Hy Hz Wx Wy Wz)
    as (stk' & Hstk' & Hs & _ & Hd).
  rewrite Hstk in Hstk'. injection Hstk' as <-.
  rewrite !(item_5 stk X Y Z C 3) by (auto; lia).
  rewrite (item_4 px X Y Z C), (item_4 py X Y Z C), (item_4 pz X Y Z C) by auto.
  apply Hd, ravel_4_lt; auto.
Qed.

(** ** Mean fusion of three identical directions *)

(** In exact arithmetic the mean of three equal values is that value. *)
Lemma mean_identical_Q (v : Q) : (mean_lane 3 [v; v; v] == v)%Q.
Proof. unfold mean_lane, sum_lane. cbn. field. Qed.

(** C5, as the code has it. With [probs=True], [mean_fusion] returns the
    mean along the direction axis as it is, with no thresholding and
    whatever the threshold. For a volume [p] of shape (nx, ny, nz, nc)
    stacked three times on itself, in any dtype, the result has the
    shape of [p] and holds, in place of each entry [v] of [p], the value
    ((0 + v) + v + v) / 3 as the dtype computes it. That value is [v]
    where the dtype computes exactly, and need not be in float64: see
    the counterexample. *)
Theorem mean_fusion_of_identical_directions {V : Type} `{DType V} {E : Type}
    (t : V) (p : ndarray V) (nx ny nz nc : nat) :
  shape p = [nx; ny; nz; nc] → wf p →
  ∃ stk r,
    stack_directions (E:=E) [p; p; p] = Ok stk ∧
    mean_fusion t stk true = Ok (inl r) ∧
    shape r = shape p ∧
    data r =
      (λ v, true_divide (add (add (add (of_int 0) v) v) v) (of_int 3)) <$> data p.
Proof.
  intros Hs Hwf.
  destruct (stack_directions_ok (E:=E) p p p nx ny nz nc Hs Hs Hs Hwf Hwf Hwf)
    as (stk & Hstk & Hss & Hwfs & Hd).
  exists stk. eexists. split; [exact Hstk|].
  rewrite mean_fusion_probs. unfold mean_axis4.
  rewrite (reduce_axis4_5d _ _ _ _ _ _ _ Hss).
  split; [reflexivity|]. split; [by rewrite Hs|].
  cbn [data]. unfold wf in Hwf. rewrite Hs, size_of_4 in Hwf.
  apply list_eq. intros i. rewrite !list_lookup_fmap.
  destruct (decide (i < nx * ny * nz * nc)) as [Hi|Hi].
  - destruct (lookup_lt_is_Some_2 (data p) i) as [v Hv]; [lia|].
    rewrite lookup_seq_lt, Hv by exact Hi. cbn [fmap option_fmap option_map].
    destruct (Hd i Hi) as (H0 & H1 & H2). rewrite Hv in H0, H1, H2.
    rewrite Nat.add_0_l, (lane_3 _ _ _ _ _ H0 H1 H2). reflexivity.
  - rewrite lookup_seq_ge, (lookup_ge_None_2 (data p)) by lia. reflexivity.
Qed.

(** In float64, for the volume holding 0.1: the result holds
    0.10000000000000002. *)
Lemma mean_fusion_of_identical_directions_witness :
  shape tenth = [1; 1; 1; 1] ∧ wf tenth ∧
  ∃ stk r : ndarray float,
    stack_directions (E:=Empty_set) [tenth; tenth; tenth] = Ok stk ∧
    mean_fusion 0.5%float stk true = Ok (inl r) ∧
    shape r = [1; 1; 1; 1] ∧
    data r = [0x1.999999999999bp-4]%float.
Proof.
  split; [reflexivity|]. split; [reflexivity|].
  destruct (mean_fusion_of_identical_directions (E:=Empty_set) 0.5%float tenth
              1 1 1 1 eq_refl eq_refl) as (stk & r & Hstk & Hr & Hs & Hd).
  exists stk, r. split; [exact Hstk|]. split; [exact Hr|]. split; [exact Hs|].
  rewrite Hd. vm_compute. reflexivity.
Defined.

(** C5 as stated fails: in float64, the volume holding 0.1 stacked three
    times on itself has the mean ((0.1 + 0.1) + 0.1) / 3, which is
    0.10000000000000002 and not 0.1. *)
Lemma mean_fusion_identical_directions_counterexample :
  shape tenth = [1; 1; 1; 1] ∧ wf tenth ∧
  ∃ (stk r : ndarray float) (e : float),
    stack_directions (E:=Empty_set) [tenth; tenth; tenth] = Ok stk ∧
    mean_fusion 0.5%float stk true = Ok (inl r) ∧
    item r [0; 0; 0; 0] = Some e ∧
    item tenth [0; 0; 0; 0] = Some 0x1.999999999999ap-4%float ∧
    PrimFloat.eqb e 0x1.999999999999ap-4%float = false ∧
    r ≠ tenth.
Proof.
  split; [reflexivity|]. split; [reflexivity|].
  exists (NdArray [1; 1; 1; 1; 3]
            [0x1.999999999999ap-4; 0x1.999999999999ap-4; 0x1.999999999999ap-4]%float),
         (NdArray [1; 1; 1; 1] [0x1.999999999999bp-4]%float),
         0x1.999999999999bp-4%float.
  split; [vm_compute; reflexivity|]. split; [vm_compute; reflexivity|].
  split; [reflexivity|]. split; [reflexivity|]. split; [vm_compute; reflexivity|].
  intros Heq.
  apply (f_equal (λ a, match data a with
                       | [f] => PrimFloat.eqb f 0x1.999999999999ap-4%float
                       | _ => false
                       end)) in Heq.
  vm_compute in Heq. discriminate Heq.
Qed.

(** ** The runner *)

Example stub_run_by_subject :
  let '(st, r) := Stub.run (Some "s01") None in
  world st = ["by_id x"; "trainer"; "get_seg x"; "by_id y"; "trainer"; "get_seg y";
              "by_id z"; "trainer"; "get_seg z"] ∧
  r = Ok (NdArray [1; 1; 1; 2; 3]
            [9 # 10; 1 # 10; 9 # 10; 1 # 10; 1 # 10; 9 # 10]%Q, "labels-z").
Proof. vm_compute. split; reflexivity. Qed.

Section RunnerFacts.
Context {V E W O Model Data Labels DataManager TrainerT : Type}.
Context (ById : gmap string (attr O) → string → W → W * outcome E DataManager).
Context (ByFile : gmap string (attr O) → option Data → W → W * outcome E DataManager).
Context (Trainer : Model → DataManager → W → W * outcome E TrainerT).
Context (get_seg : TrainerT → gmap string (attr O) → bool → bool → W →
                   W * outcome E (ndarray V * Labels)).
Context (model : Model) (subject : option string) (d : option Data) (scale : bool).

Local Abbreviation iteration :=
  (process_direction ById ByFile Trainer get_seg model subject d scale).
Local Abbreviation run :=
  (get_seg_single_img_3_directions ById ByFile Trainer get_seg model subject d scale).

Ltac run_calls :=
  repeat match goal with
    | |- context [ById ?hp ?s ?w] => destruct (ById hp s w) as [? [?|?]]
    | |- context [ByFile ?hp ?s ?w] => destruct (ByFile hp s w) as [? [?|?]]
    | |- context [Trainer ?m ?dm ?w] => destruct (Trainer m dm w) as [? [?|?]]
    | |- context [get_seg ?tr ?hp ?p ?s ?w] =>
        destruct (get_seg tr hp p s w) as [? [[? ?]|?]]
    end; simpl.

(** One turn of the loop leaves [SLICE_DIRECTION] set and nothing else
    changed in the configuration, however it ends. *)
Lemma process_direction_HP idx dir st :
  HP (iteration idx dir st).1 = <["SLICE_DIRECTION" := AStr dir]> (HP st).
Proof.
  unfold process_direction, bind, setattr, log, getHP, call, returned, ret, raise.
  simpl. destruct (truthy subject); simpl; run_calls; reflexivity.
Qed.

(** A turn that ends well has printed its notice, built the data
    manager from the subject if there is one and from the data
    otherwise, built the trainer and asked it once for probabilities. *)
Lemma process_direction_ok idx dir st st' p l :
  iteration idx dir st = (st', Ok (p, l)) →
  ∃ dm,
    trace st' = trace st ++
      [Print ("Processing direction (" +:+ pretty (idx + 1) +:+ " of 3)");
       match truthy subject with
       | Some s => NewById (<["SLICE_DIRECTION" := AStr dir]> (HP st)) s
       | None => NewByFile (<["SLICE_DIRECTION" := AStr dir]> (HP st)) d
       end;
       NewTrainer model dm;
       GetSeg (<["SLICE_DIRECTION" := AStr dir]> (HP st)) true scale (Ok (p, l))].
Proof.
  unfold process_direction, bind, setattr, log, getHP, call, returned, ret, raise.
  simpl. destruct (truthy subject); simpl; run_calls; intros [= <- <- <-];
    simpl; rewrite <- !app_assoc; eexists; reflexivity.
Qed.

Lemma run_unfold st :
  run st =
    match iteration 0 "x" st with
    | (st1, Raise e) => (st1, Raise e)
    | (st1, Ok (px, lx)) =>
    match iteration 1 "y" st1 with
    | (st2, Raise e) => (st2, Raise e)
    | (st2, Ok (py, ly)) =>
    match iteration 2 "z" st2 with
    | (st3, Raise e) => (st3, Raise e)
    | (st3, Ok (pz, lz)) =>
        (st3, match stack_directions [px; py; pz] with
              | Ok stk => Ok (stk, lz)
              | Raise e => Raise e
              end)
    end end end.
Proof.
  unfold get_seg_single_img_3_directions, for_directions, bind.
  destruct (iteration 0 "x" st) as [st1 [[px lx]|e]]; [|reflexivity].
  destruct (iteration 1 "y" st1) as [st2 [[py ly]|e]]; [|reflexivity].
  destruct (iteration 2 "z" st2) as [st3 [[pz lz]|e]]; [|reflexivity].
  unfold ret, raise. cbn [app]. cbv beta iota zeta.
  destruct (stack_directions (E:=E) [px; py; pz]); reflexivity.
Qed.

Lemma process_direction_inference idx dir st st' p l :
  iteration idx dir st = (st', Ok (p, l)) →
  ∃ evs,
    trace st' = trace st ++ evs ∧
    inferences evs =
      [(<["SLICE_DIRECTION" := AStr dir]> (HP st), true, scale, Ok (p, l))].
Proof.
  unfold process_direction, bind, setattr, log, getHP, call, returned, ret, raise.
  simpl. destruct (truthy subject); simpl; run_calls; intros [= <- <- <-];
    simpl; rewrite <- !app_assoc; eexists; (split; [reflexivity|]);
    reflexivity.
Qed.

Lemma inferences_app (evs1 evs2 : list (event (V:=V) (E:=E) (O:=O) (Model:=Model)
                                  (Data:=Data) (Labels:=Labels) (DataManager:=DataManager))) :
  inferences (evs1 ++ evs2) = inferences evs1 ++ inferences evs2.
Proof. apply omap_app. Qed.


(** C4. When the three turns of the loop yield probability volumes of
    one and the same 4-dimensional shape (nx, ny, nz, nc), the call
    returns a stacked volume of shape (nx, ny, nz, nc, 3) whose last
    axis holds, at each position, the value of the x-direction volume,
    then that of y, then that of z. *)
Theorem stacked_volume_shape_and_order st st1 st2 st3 px py pz lx ly lz
    (nx ny nz nc : nat) :
  iteration 0 "x" st = (st1, Ok (px, lx)) →
  iteration 1 "y" st1 = (st2, Ok (py, ly)) →
  iteration 2 "z" st2 = (st3, Ok (pz, lz)) →
  shape px = [nx; ny; nz; nc] → shape py = [nx; ny; nz; nc] →
  shape pz = [nx; ny; nz; nc] →
  wf px → wf py → wf pz →
  ∃ stk,
    get_seg_single_img_3_directions ById ByFile Trainer get_seg
      model subject d scale st = (st3, Ok (stk, lz)) ∧
    shape stk = [nx; ny; nz; nc; 3] ∧ wf stk ∧
    ∀ x y z c, x < nx → y < ny → z < nz → c < nc →
      item stk [x; y; z; c; 0] = item px [x; y; z; c] ∧
      item stk [x; y; z; c; 1] = item py [x; y; z; c] ∧
      item stk [x; y; z; c; 2] = item pz [x; y; z; c].
Proof.
  intros E1 E2 E3 Hx Hy Hz Wx Wy Wz.
  destruct (stack_directions_ok (E:=E) px py pz nx ny nz nc Hx Hy Hz Wx Wy Wz)
    as (stk & Hstk & Hs & Hwf & _).
  exists stk. rewrite run_unfold, E1, E2, E3, Hstk.
  repeat (split; [done|]).
  intros x y z c Bx By Bz Bc.
  by apply (item_stack_directions (E:=E) px py pz stk nx ny nz nc).
Qed.

(** C7. When the call returns normally, the caller's configuration has
    [SLICE_DIRECTION] set to "z", and every other attribute is as it
    was before the call. *)
Theorem configuration_after_run st st' r :
  get_seg_single_img_3_directions ById ByFile Trainer get_seg
    model subject d scale st = (st', Ok r) →
  HP st' !! "SLICE_DIRECTION" = Some (AStr "z") ∧
  ∀ name, name ≠ "SLICE_DIRECTION" → HP st' !! name = HP st !! name.
Proof.
  rewrite run_unfold.
  pose proof (process_direction_HP 0 "x" st) as H1.
  destruct (iteration 0 "x" st) as [st1 [[px lx]|e]]; [|discriminate].
  pose proof (process_direction_HP 1 "y" st1) as H2.
  destruct (iteration 1 "y" st1) as [st2 [[py ly]|e]]; [|discriminate].
  pose proof (process_direction_HP 2 "z" st2) as H3.
  destruct (iteration 2 "z" st2) as [st3 [[pz lz]|e]]; [|discriminate].
  intros [= <- _]. simpl in *. rewrite H3, H2, H1. split.
  - apply lookup_insert_eq.
  - intros name Hname. by rewrite !lookup_insert_ne.
Qed.

(** With a subject that counts as true, a turn of the loop does not
    look at the data: it builds the data manager from the subject. *)
Lemma process_direction_by_subject idx dir st s d' :
  truthy subject = Some s →
  iteration idx dir st =
    process_direction ById ByFile Trainer get_seg model subject d' scale idx dir st ∧
  ∃ evs,
    trace (iteration idx dir st).1 = trace st ++ evs ∧
    by_file_calls evs = [] ∧
    ∀ r, (iteration idx dir st).2 = Ok r →
         by_id_calls evs = [(<["SLICE_DIRECTION" := AStr dir]> (HP st), s)].
Proof.
  intros Hs.
  unfold process_direction, bind, setattr, log, getHP, call, returned, ret, raise.
  rewrite Hs. split; [reflexivity|]. simpl. run_calls;
    rewrite <- ?app_assoc; eexists; (split; [reflexivity|]);
    (split; [reflexivity|]); intros r; (discriminate || reflexivity).
Qed.

Lemma for_directions_by_subject s d' directions idx prob_slices img_y st :
  truthy subject = Some s →
  for_directions ById ByFile Trainer get_seg model subject d scale
    idx directions prob_slices img_y st =
  for_directions ById ByFile Trainer get_seg model subject d' scale
    idx directions prob_slices img_y st.
Proof.
  intros Hs. revert idx prob_slices img_y st.
  induction directions as [|dir rest IH]; intros idx prob_slices img_y st;
    [reflexivity|].
  simpl. unfold bind.
  rewrite <- (proj1 (process_direction_by_subject idx dir st s d' Hs)).
  destruct (iteration idx dir st) as [st1 [[p l]|e]]; [apply IH|reflexivity].
Qed.

(** With a subject that counts as true the whole loop does not look at
    the data. *)
Lemma run_by_subject_any_data s d' st :
  truthy subject = Some s →
  run st =
    get_seg_single_img_3_directions ById ByFile Trainer get_seg
      model subject d' scale st.
Proof.
  intros Hs. unfold get_seg_single_img_3_directions, bind.
  by rewrite (for_directions_by_subject s d').
Qed.

(** A turn of the loop, however it ends: it has printed its notice and
    asked for one data manager, from the subject if it counts as true
    and from the data otherwise, with the direction of the turn in the
    configuration. *)
Lemma process_direction_access idx dir st :
  ∃ evs,
    trace (iteration idx dir st).1 = trace st ++ evs ∧
    notices evs = ["Processing direction (" +:+ pretty (idx + 1) +:+ " of 3)"] ∧
    match truthy subject with
    | Some s =>
        by_id_calls evs = [(<["SLICE_DIRECTION" := AStr dir]> (HP st), s)] ∧
        by_file_calls evs = []
    | None =>
        by_id_calls evs = [] ∧
        by_file_calls evs = [(<["SLICE_DIRECTION" := AStr dir]> (HP st), d)]
    end.
Proof.
  unfold process_direction, bind, setattr, log, getHP, call, returned, ret, raise.
  simpl. destruct (truthy subject); simpl; run_calls;
    rewrite <- ?app_assoc; eexists; (split; [reflexivity|]);
    (split; [reflexivity|]); split; reflexivity.
Qed.

Lemma notices_app (evs1 evs2 : list (event (V:=V) (E:=E) (O:=O) (Model:=Model)
                                  (Data:=Data) (Labels:=Labels) (DataManager:=DataManager))) :
  notices (evs1 ++ evs2) = notices evs1 ++ notices evs2.
Proof. apply omap_app. Qed.

(** The loop, however it ends: [k] turns were started, at least one and
    at most three, in the order x, y, z; each printed its notice and
    asked for its data manager on the same side, the subject's if the
    subject counts as true and the data's otherwise; a call that returns
    has started all three. *)
Lemma run_access st :
  ∃ k evs,
    1 ≤ k ≤ 3 ∧
    trace (run st).1 = trace st ++ evs ∧
    notices evs =
      take k ["Processing direction (1 of 3)"; "Processing direction (2 of 3)";
              "Processing direction (3 of 3)"] ∧
    match truthy subject with
    | Some s =>
        by_id_calls evs =
          (λ dir, (<["SLICE_DIRECTION" := AStr dir]> (HP st), s))
            <$> take k ["x"; "y"; "z"] ∧
        by_file_calls evs = []
    | None =>
        by_id_calls evs = [] ∧
        by_file_calls evs =
          (λ dir, (<["SLICE_DIRECTION" := AStr dir]> (HP st), d))
            <$> take k ["x"; "y"; "z"]
    end ∧
    ∀ r, (run st).2 = Ok r → k = 3.
Proof.
  rewrite run_unfold.
  destruct (process_direction_access 0 "x" st) as (evs1 & T1 & N1 & A1).
  pose proof (process_direction_HP 0 "x" st) as H1.
  destruct (iteration 0 "x" st) as [st1 [[px lx]|e]]; simpl in T1, H1.
  2: { exists 1, evs1. split; [lia|]. split; [exact T1|]. split; [exact N1|].
       split; [|discriminate]. destruct (truthy subject); exact A1. }
  destruct (process_direction_access 1 "y" st1) as (evs2 & T2 & N2 & A2).
  pose proof (process_direction_HP 1 "y" st1) as H2.
  rewrite H1, insert_insert_eq in A2.
  destruct (iteration 1 "y" st1) as [st2 [[py ly]|e]]; simpl in T2, H2.
  2: { exists 2, (evs1 ++ evs2). split; [lia|]. cbn [fst snd].
       rewrite T2, T1, <- app_assoc, notices_app, N1, N2.
       split; [reflexivity|]. split; [reflexivity|]. split; [|discriminate].
       unfold by_id_calls, by_file_calls in *. rewrite !omap_app.
       destruct (truthy subject); destruct A1 as [-> ->]; destruct A2 as [-> ->];
         split; reflexivity. }
  destruct (process_direction_access 2 "z" st2) as (evs3 & T3 & N3 & A3).
  rewrite H2, H1, !insert_insert_eq in A3.
  assert (Hend : ∀ o : outcome (exn E) (ndarray V * Labels),
            trace ((iteration 2 "z" st2).1, o).1 = trace st ++ evs1 ++ evs2 ++ evs3).
  { intros o. simpl. by rewrite T3, T2, T1, <- !app_assoc. }
  exists 3, (evs1 ++ evs2 ++ evs3). split; [lia|]. split.
  { destruct (iteration 2 "z" st2) as [st3 [[pz lz]|e]]; apply Hend. }
  rewrite !notices_app, N1, N2, N3. split; [reflexivity|]. split; [|auto].
  unfold by_id_calls, by_file_calls in *. rewrite !omap_app.
  destruct (truthy subject); destruct A1 as [-> ->]; destruct A2 as [-> ->];
    destruct A3 as [-> ->]; split; reflexivity.
Qed.
End RunnerFacts.

(** The theorems on the runner, applied to the stub collaborators. *)

Lemma stub_run_returns :
  Stub.run (Some "s01") None =
    ((Stub.run (Some "s01") None).1, Ok (scenario_Q, "labels-z")).
Proof. vm_compute. reflexivity. Qed.


Lemma stub_turn_x :
  process_direction Stub.by_id Stub.by_file Stub.trainer Stub.get_seg
    tt (Some "s01") None true 0 "x" Stub.st0
  = ((process_direction Stub.by_id Stub.by_file Stub.trainer Stub.get_seg
        tt (Some "s01") None true 0 "x" Stub.st0).1,
     Ok (Stub.volume "x", "labels-x")).
Proof. vm_compute. reflexivity. Qed.

Lemma stub_turn_y st :
  process_direction Stub.by_id Stub.by_file Stub.trainer Stub.get_seg
    tt (Some "s01") None true 1 "y" st
  = ((process_direction Stub.by_id Stub.by_file Stub.trainer Stub.get_seg
        tt (Some "s01") None true 1 "y" st).1,
     Ok (Stub.volume "y", "labels-y")).
Proof.
  unfold process_direction, bind, setattr, log, getHP, call, returned, ret, raise.
  simpl. unfold Stub.direction_of. rewrite lookup_insert_eq. reflexivity.
Qed.

Lemma stub_turn_z st :
  process_direction Stub.by_id Stub.by_file Stub.trainer Stub.get_seg
    tt (Some "s01") None true 2 "z" st
  = ((process_direction Stub.by_id Stub.by_file Stub.trainer Stub.get_seg
        tt (Some "s01") None true 2 "z" st).1,
     Ok (Stub.volume "z", "labels-z")).
Proof.
  unfold process_direction, bind, setattr, log, getHP, call, returned, ret, raise.
  simpl. unfold Stub.direction_of. rewrite lookup_insert_eq. reflexivity.
Qed.

Lemma stacked_volume_shape_and_order_witness :
  ∃ st' stk,
    Stub.run (Some "s01") None = (st', Ok (stk, "labels-z")) ∧
    shape stk = [1; 1; 1; 2; 3] ∧ wf stk ∧
    item stk [0; 0; 0; 0; 0] = item (Stub.volume "x") [0; 0; 0; 0] ∧
    item stk [0; 0; 0; 0; 1] = item (Stub.volume "y") [0; 0; 0; 0] ∧
    item stk [0; 0; 0; 0; 2] = item (Stub.volume "z") [0; 0; 0; 0].
Proof.
  destruct (stacked_volume_shape_and_order Stub.by_id Stub.by_file Stub.trainer
              Stub.get_seg tt (Some "s01") None true Stub.st0 _ _ _ _ _ _ _ _ _
              1 1 1 2 stub_turn_x (stub_turn_y _) (stub_turn_z _)
              eq_refl eq_refl eq_refl eq_refl eq_refl eq_refl)
    as (stk & Hrun & Hs & Hwf & Hitem).
  eexists _, stk. split; [exact Hrun|]. split; [exact Hs|]. split; [exact Hwf|].
  apply (Hitem 0 0 0 0); lia.
Defined.

Lemma configuration_after_run_witness :
  HP (Stub.run (Some "s01") None).1 !! "SLICE_DIRECTION" = Some (AStr "z") ∧
  HP (Stub.run (Some "s01") None).1 !! "BATCH_SIZE" = Some (AOther tt).
Proof.
  destruct (configuration_after_run Stub.by_id Stub.by_file Stub.trainer
              Stub.get_seg tt (Some "s01") None true Stub.st0
              (Stub.run (Some "s01") None).1 (scenario_Q, "labels-z")
              stub_run_returns) as [Hz Hother].
  split; [exact Hz|]. rewrite Hother by discriminate. reflexivity.
Defined.

(** ** The whole call: which data manager is asked *)

Section CallFacts.
Context {V E W O Model Data Labels DataManager TrainerT : Type}.
Context (import_Trainer :
           W → W * outcome E (Model → DataManager → W → W * outcome E TrainerT)).
Context (ById : gmap string (attr O) → string → W → W * outcome E DataManager).
Context (ByFile : gmap string (attr O) → option Data → W → W * outcome E DataManager).
Context (get_seg : TrainerT → gmap string (attr O) → bool → bool → W →
                   W * outcome E (ndarray V * Labels)).
Context (model : Model) (subject : option string) (d : option Data) (scale : bool).

(** The call is the import followed, if it yields the class, by the
    loop and the stacking; an import that raises ends the call with the
    configuration and the trace as they were. *)
Lemma call_unfold subject' d' st :
  get_seg_single_img_3_directions_call import_Trainer ById ByFile get_seg
    model subject' d' scale st =
    match import_Trainer (world st) with
    | (w, Ok Trainer) =>
        get_seg_single_img_3_directions ById ByFile Trainer get_seg
          model subject' d' scale (State (HP st) w (trace st))
    | (w, Raise e) => (State (HP st) w (trace st), Raise (Raised e))
    end.
Proof.
  unfold get_seg_single_img_3_directions_call, bind, call, returned, ret, raise.
  destruct (import_Trainer (world st)) as [w [Tr|e]]; reflexivity.
Qed.

End CallFacts.

Lemma stub_call_returns :
  Stub.call (Some "s01") (Some scenario_Q) =
    ((Stub.call (Some "s01") (Some scenario_Q)).1, Ok (scenario_Q, "labels-z")).
Proof. vm_compute. reflexivity. Qed.


(** Without a subject that counts as true (none, or the empty string),
    the data manager is built from the data. *)
Example stub_run_by_data :
  by_id_calls (trace (Stub.run (Some "") (Some scenario_Q)).1) = [] ∧
  length (by_file_calls (trace (Stub.run (Some "") (Some scenario_Q)).1)) = 3 ∧
  world (Stub.run None None).1 =
    ["by_file x"; "trainer"; "get_seg x"; "by_file y"; "trainer"; "get_seg y";
     "by_file z"; "trainer"; "get_seg z"].
Proof. vm_compute. repeat split; reflexivity. Qed.

(** The boundary cases in float64: values equal to the threshold count
    as 1 (mean 0.5 is [>= 0.5], three votes), and (0.25, 0.25, 0.75) has a
    mean below 0.5 and a single vote. *)
Example fusion_boundary_float64 :
  mean_fusion 0.5%float boundary false = Ok (inr (NdArray [1; 1; 1; 2] [1; 0]%Z)) ∧
  (majority_fusion 0.5%float 1%positive None (λ _, boundary)).2
  = Ok (NdArray [1; 1; 1; 2] [1; 0]%Z).
Proof. split; vm_compute; reflexivity. Qed.

(** ** float64 without NaN is a total order *)

Lemma SFcompare_antisym (a b : spec_float) :
  a ≠ S754_nan → b ≠ S754_nan →
  ∃ c, SFcompare a b = Some c ∧ SFcompare b a = Some (CompOpp c).
Proof.
  intros Ha Hb.
  destruct a as [sa|sa| |sa ma ea]; [| |congruence|];
    destruct b as [sb|sb| |sb mb eb]; try congruence;
    try (destruct sa; destruct sb; simpl; eexists; split; reflexivity);
    try (destruct sa; simpl; eexists; split; reflexivity);
    try (destruct sb; simpl; eexists; split; reflexivity).
  assert (Hm : Pos.compare_cont Eq mb ma = CompOpp (Pos.compare_cont Eq ma mb))
    by (rewrite Pos.compare_cont_antisym; reflexivity).
  simpl. rewrite (Z.compare_antisym ea eb), Hm.
  destruct sa, sb; simpl; destruct (ea ?= eb)%Z; simpl;
    eexists; (split; [reflexivity|]); simpl;
    try reflexivity; destruct (Pos.compare_cont Eq ma mb); reflexivity.
Qed.

Lemma is_nan_Prim2SF (x : float) : is_nan x = false → Prim2SF x ≠ S754_nan.
Proof.
  unfold is_nan. rewrite FloatAxioms.eqb_spec. intros Hx Hnan.
  rewrite Hnan in Hx. discriminate Hx.
Qed.

(** For float64 values that are not NaN, [x < y] is the negation of
    [x >= y], as the total-order laws ask. *)
Lemma float64_less_greater_equal (x y : float) :
  is_nan x = false → is_nan y = false →
  less x y = negb (greater_equal x y).
Proof.
  intros Hx%is_nan_Prim2SF Hy%is_nan_Prim2SF. cbn.
  rewrite ltb_spec, leb_spec. unfold SFltb, SFleb.
  destruct (SFcompare_antisym _ _ Hx Hy) as (c & -> & ->).
  destruct c; reflexivity.
Qed.

(** Hence the two masked assignments followed by the cast do on float64
    what they do on a total order, NaN apart. *)
Lemma float64_binarize (t v : float) :
  is_nan t = false → is_nan v = false →
  astype_int16 (binarize t v) =
    if greater_equal v t && negb (less (of_int 1) t) then 1%Z else 0%Z.
Proof.
  intros Ht Hv. unfold binarize.
  destruct (greater_equal v t) eqn:Hge; cbv zeta.
  - destruct (less (of_int 1) t); vm_compute; reflexivity.
  - rewrite (float64_less_greater_equal v t Hv Ht), Hge. vm_compute. reflexivity.
Qed.


(** * Further properties of the reducers *)

Lemma length_reduce_axis4 {R} (g : nat → nat → R) (outer inner : nat) :
  length (p ← seq 0 outer; q ← seq 0 inner; [g p q]) = outer * inner.
Proof.
  rewrite (length_bind_chunks _ inner); [reflexivity|].
  intros p _. rewrite (length_bind_chunks _ 1); [lia|]. reflexivity.
Qed.

Lemma reduce_axis4_outcome {V R} (f : nat → list V → R) (a : ndarray V) :
  match reduce_axis4 f a with
  | Raise e => e = AxisError ∧ length (shape a) < 5
  | Ok r => 5 ≤ length (shape a) ∧ shape r = drop_axis4 (shape a) ∧ wf r
  end.
Proof.
  unfold reduce_axis4, drop_axis4.
  destruct (shape a) as [|s0 [|s1 [|s2 [|s3 [|n post]]]]]; simpl; try (split; [reflexivity|lia]).
  split; [lia|]. split; [reflexivity|].
  unfold wf. simpl data. simpl shape. rewrite length_reduce_axis4.
  simpl. lia.
Qed.

(** X1. [mean_fusion] raises exactly when [img] has fewer than five axes,
    and then it is [AxisError]; otherwise it returns, in both modes, a
    well-formed array whose shape is that of [img] without its fifth
    axis. No other input makes it fail. *)
Theorem mean_fusion_outcome {V : Type} `{DType V}
    (t : V) (img : ndarray V) (probs : bool) :
  match mean_fusion t img probs with
  | Raise e => e = AxisError ∧ length (shape img) < 5
  | Ok r =>
      5 ≤ length (shape img) ∧
      fused_shape r = drop_axis4 (shape img) ∧ fused_wf r
  end.
Proof.
  unfold mean_fusion, mean_axis4.
  pose proof (reduce_axis4_outcome mean_lane img) as Hr.
  destruct (reduce_axis4 mean_lane img) as [m|e]; [|exact Hr].
  destruct Hr as (Hn & Hs & Hwf).
  destruct probs; simpl; (split; [exact Hn|]); (split; [exact Hs|]).
  - exact Hwf.
  - unfold wf in *. simpl. rewrite length_fmap, !length_zip_with_l_eq;
      rewrite ?length_fmap, ?length_zip_with_l_eq; rewrite ?length_fmap; auto.
Qed.

(** X2. [majority_fusion] raises exactly when the array behind [img] has
    fewer than five axes, and then it is [AxisError]; otherwise it returns
    a well-formed array whose shape is that of [img] without its fifth
    axis. In both cases the caller's array has by then been overwritten
    by the two masked assignments: a failed call does not leave its input
    as it was. *)
Theorem majority_fusion_outcome {V : Type} `{DType V}
    (t : V) (img : positive) (probs : option bool) (h : positive → ndarray V) :
  (majority_fusion t img probs h).1 img =
    (let a1 := setitem_mask (ge_scalar (h img) t) (of_int 1) (h img) in
     setitem_mask (lt_scalar a1 t) (of_int 0) a1) ∧
  match (majority_fusion t img probs h).2 with
  | Raise e => e = AxisError ∧ length (shape (h img)) < 5
  | Ok r =>
      5 ≤ length (shape (h img)) ∧
      shape r = drop_axis4 (shape (h img)) ∧ wf r
  end.
Proof.
  split.
  { rewrite majority_fusion_heap_img. symmetry. apply two_masked_assignments. }
  unfold majority_fusion. rewrite !fn_lookup_insert. unfold sum_axis4.
  match goal with
  | |- context [reduce_axis4 ?f ?a] =>
      pose proof (reduce_axis4_outcome f a) as Hr;
      destruct (reduce_axis4 f a) as [probs_sum|e]
  end; simpl in Hr |- *; [|exact Hr].
  destruct Hr as (Hn & Hs & Hwf).
  split; [exact Hn|]. split; [exact Hs|].
  unfold wf in *. simpl.
  rewrite length_fmap, !length_zip_with_l_eq;
    rewrite ?length_fmap, ?length_replicate; auto.
  rewrite length_zip_with_l_eq; rewrite ?length_fmap, ?length_replicate; auto.
Qed.


Lemma majority_fusion_tally {V : Type} `{DType V}
    (t : V) (img : positive) (probs : option bool) (h : positive → ndarray V) :
  (majority_fusion t img probs h).2 = tally ((majority_fusion t img probs h).1 img).
Proof.
  unfold majority_fusion. cbv zeta. rewrite !fn_lookup_insert.
  match goal with
  | |- context [sum_axis4 (amap astype_int16 ?b)] =>
      set (B := b); destruct (sum_axis4 (amap astype_int16 B)) eqn:Hsum
  end; simpl; rewrite fn_lookup_insert; unfold tally; cbv zeta;
    fold B; rewrite Hsum; reflexivity.
Qed.

Lemma binarize_idempotent {V : Type} `{TotalOrderDType V} (t v : V) :
  greater_equal (of_int 0) t = false → greater_equal (of_int 1) t = true →
  binarize t (binarize t v) = binarize t v.
Proof.
  intros H0t H1t. rewrite (binarize_total t v).
  destruct (greater_equal v t && negb (less (of_int 1) t));
    rewrite binarize_total, less_greater_equal, ?H0t, ?H1t; reflexivity.
Qed.

(** X3. For a threshold in (0, 1], a second [majority_fusion] on the same
    array with the same threshold changes nothing: the array, already
    binarized in place by the first call, stays as it is, and the second
    call returns what the first returned. *)
Theorem majority_fusion_twice {V : Type} `{TotalOrderDType V}
    (t : V) (img : positive) (probs probs' : option bool)
    (h : positive → ndarray V) :
  greater_equal (of_int 0) t = false → greater_equal (of_int 1) t = true →
  (majority_fusion t img probs' (majority_fusion t img probs h).1).2
    = (majority_fusion t img probs h).2 ∧
  ∀ l, (majority_fusion t img probs' (majority_fusion t img probs h).1).1 l
       = (majority_fusion t img probs h).1 l.
Proof.
  intros H0t H1t.
  assert (Himg : (majority_fusion t img probs' (majority_fusion t img probs h).1).1 img
                 = (majority_fusion t img probs h).1 img).
  { rewrite !majority_fusion_heap_img. unfold amap. simpl. f_equal.
    rewrite <- list_fmap_compose. apply list_fmap_ext. intros _ v _. simpl.
    by apply binarize_idempotent. }
  split.
  - by rewrite !majority_fusion_tally, Himg.
  - intros l. destruct (decide (l = img)) as [->|Hl]; [exact Himg|].
    by rewrite majority_fusion_heap_other.
Qed.

Lemma majority_fusion_twice_witness :
  (majority_fusion (1 # 2)%Q 1%positive (Some true)
     (majority_fusion (1 # 2)%Q 1%positive None (λ _, scenario_Q)).1).2
  = Ok (NdArray [1; 1; 1; 2] [1; 0]%Z).
Proof.
  destruct (majority_fusion_twice (1 # 2)%Q 1%positive None (Some true)
              (λ _, scenario_Q)) as [Hr _]; [reflexivity|reflexivity|].
  rewrite Hr. reflexivity.
Defined.

Lemma lane_3_exists {V} (d : list V) (n p : nat) :
  length d = n * 3 → p < n → ∃ v0 v1 v2, lane d 3 1 p 0 = [v0; v1; v2].
Proof.
  intros Hlen Hp.
  destruct (lookup_lt_is_Some_2 d (p * 3 + 0)) as [v0 H0]; [lia|].
  destruct (lookup_lt_is_Some_2 d (p * 3 + 1)) as [v1 H1]; [lia|].
  destruct (lookup_lt_is_Some_2 d (p * 3 + 2)) as [v2 H2]; [lia|].
  exists v0, v1, v2. by apply lane_3.
Qed.

Lemma majority_bits_mean_Q (b0 b1 b2 : bool) :
  let bit (b : bool) : Q := if b then of_int 1 else of_int 0 in
  astype_int16 (binarize (1 # 2)%Q (mean_lane 3 [bit b0; bit b1; bit b2]))
  = vote (count_lane [astype_int16 (bit b0); astype_int16 (bit b1);
                      astype_int16 (bit b2)]).
Proof. destruct b0, b1, b2; vm_compute; reflexivity. Qed.

(** X4. The two reducers meet on the array that [majority_fusion] leaves
    behind: in exact arithmetic, for a stacked volume of shape
    (nx, ny, nz, nc, 3) and any threshold, [mean_fusion] with threshold
    1/2 and [probs=False], run on the caller's array after
    [majority_fusion] has binarized it in place, returns the very array
    that [majority_fusion] returned (two votes out of three is a mean of
    at least 1/2 of the binarized values). *)
Theorem mean_fusion_after_majority_fusion
    (t : Q) (img : positive) (probs : option bool) (h : positive → ndarray Q)
    (nx ny nz nc : nat) :
  shape (h img) = [nx; ny; nz; nc; 3] → wf (h img) →
  ∃ r : ndarray Z,
    (majority_fusion t img probs h).2 = Ok r ∧
    mean_fusion (1 # 2)%Q ((majority_fusion t img probs h).1 img) false
      = Ok (inr r).
Proof.
  intros Hs Hwf. eexists.
  split; [apply (majority_fusion_result _ _ _ _ _ _ _ _ _ Hs)|].
  rewrite majority_fusion_heap_img.
  rewrite (mean_fusion_binary _ _ nx ny nz nc 3) by exact Hs.
  do 3 f_equal. apply list_fmap_ext. intros i p Hp.
  apply lookup_seq in Hp as [-> Hi]. simpl.
  unfold wf in Hwf. rewrite Hs in Hwf. simpl in Hwf.
  destruct (lane_3_exists (data (h img)) (nx * ny * nz * nc) i) as (v0 & v1 & v2 & Hl);
    [lia|exact Hi|].
  rewrite lane_fmap, Hl. cbn [fmap list_fmap].
  rewrite !(binarize_total t).
  apply majority_bits_mean_Q.
Qed.

Lemma mean_fusion_after_majority_fusion_witness :
  mean_fusion (1 # 2)%Q
    ((majority_fusion (1 # 3)%Q 1%positive None (λ _, scenario_Q)).1 1%positive) false
  = Ok (inr (NdArray [1; 1; 1; 2] [1; 0]%Z)).
Proof.
  destruct (mean_fusion_after_majority_fusion (1 # 3)%Q 1%positive None
              (λ _, scenario_Q) 1 1 1 2 eq_refl eq_refl) as (r & Hr & Hm).
  rewrite Hm. f_equal. f_equal.
  assert (Hr' : (majority_fusion (1 # 3)%Q 1%positive None (λ _, scenario_Q)).2
                = Ok (NdArray [1; 1; 1; 2] [1; 0]%Z)) by reflexivity.
  rewrite Hr in Hr'. by injection Hr'.
Defined.

(** ** Any number of stacked directions *)

Lemma lane_of_items {V} (img : ndarray V) X Y Z C N x y z c :
  shape img = [X; Y; Z; C; N] → x < X → y < Y → z < Z → c < C →
  lane (data img) N 1 (ravel [X; Y; Z; C] [x; y; z; c]) 0
  = omap (λ k, item img [x; y; z; c; k]) (seq 0 N).
Proof.
  intros Hs Hx Hy Hz Hc. unfold lane. apply list_omap_ext.
  apply Forall2_same_length_lookup_2; [done|].
  intros i k1 k2 Hk1 Hk2. rewrite Hk1 in Hk2. injection Hk2 as <-.
  apply lookup_seq in Hk1 as [-> Hi]. simpl.
  rewrite (item_5 img X Y Z C N) by auto.
  f_equal. lia.
Qed.

Lemma int64_small (z : Z) : (- 2 ^ 63 ≤ z < 2 ^ 63)%Z → int64 z = z.
Proof.
  intros Hz. unfold int64, wrap. change (64 - 1)%Z with 63%Z.
  assert (2 ^ 64 = 2 * 2 ^ 63)%Z as -> by reflexivity.
  rewrite Z.mod_small by lia. lia.
Qed.

Lemma count_lane_indicator {V} (f : V → bool) (l : list V) :
  (Z.of_nat (length l) < 2 ^ 63)%Z →
  count_lane ((λ v, if f v then 1%Z else 0%Z) <$> l)
  = Z.of_nat (length (List.filter f l)).
Proof.
  unfold count_lane. intros Hlen.
  assert (Hgen : ∀ acc : Z,
            (0 ≤ acc)%Z → (acc + Z.of_nat (length l) < 2 ^ 63)%Z →
            foldl (λ a x, int64 (a + x)) acc ((λ v, if f v then 1%Z else 0%Z) <$> l)
            = (acc + Z.of_nat (length (List.filter f l)))%Z).
  { clear Hlen. induction l as [|v l IH]; intros acc Hacc Hb; simpl in *; [lia|].
    destruct (f v); simpl.
    - rewrite int64_small by lia. rewrite IH by lia. lia.
    - rewrite int64_small by lia. rewrite IH by lia. lia. }
  rewrite Hgen by lia. lia.
Qed.

Lemma filter_length_le {V} (f : V → bool) (l : list V) :
  length (List.filter f l) ≤ length l.
Proof. induction l as [|v l IH]; simpl; [lia|]. destruct (f v); simpl; lia. Qed.

Lemma filter_all_false {V} (f : V → bool) (l : list V) :
  (∀ v, f v = false) → List.filter f l = [].
Proof. intros Hf. induction l as [|v l IH]; simpl; [done|]. by rewrite Hf. Qed.

Lemma length_omap_le {A B} (f : A → option B) (l : list A) :
  length (omap f l) ≤ length l.
Proof. induction l as [|a l IH]; csimpl; [lia|]. destruct (f a); csimpl; lia. Qed.



(** ** Order properties, in exact arithmetic *)

Lemma Q_greater_equal_iff (x y : Q) : greater_equal x y = true ↔ (y <= x)%Q.
Proof. cbn. apply Qle_bool_iff. Qed.

Lemma Q_less_iff (x y : Q) : less x y = true ↔ (x < y)%Q.
Proof.
  rewrite less_greater_equal, negb_true_iff, <- not_true_iff_false,
    Q_greater_equal_iff.
  split; [apply Qnot_le_lt|apply Qlt_not_le].
Qed.

Lemma Q_bit_monotone (t1 t2 v : Q) :
  (t1 <= t2)%Q →
  greater_equal v t2 && negb (less (of_int 1) t2) = true →
  greater_equal v t1 && negb (less (of_int 1) t1) = true.
Proof.
  intros Ht. rewrite !andb_true_iff, !negb_true_iff, <- !not_true_iff_false,
    !Q_greater_equal_iff, !Q_less_iff.
  intros [Hv H1]. split.
  - eapply Qle_trans; eauto.
  - intros H1'. apply H1. eapply Qlt_le_trans; eauto.
Qed.

Lemma vote_monotone (a0 a1 a2 b0 b1 b2 : bool) :
  let bit (b : bool) := if b then 1%Z else 0%Z in
  (a0 = true → b0 = true) → (a1 = true → b1 = true) → (a2 = true → b2 = true) →
  (vote (count_lane [bit a0; bit a1; bit a2])
   ≤ vote (count_lane [bit b0; bit b1; bit b2]))%Z.
Proof.
  intros bit H0 H1 H2. unfold bit. rewrite !count_lane_3.
  destruct a0, a1, a2, b0, b1, b2; simpl; try lia;
    (specialize (H0 eq_refl) || specialize (H1 eq_refl) || specialize (H2 eq_refl));
    discriminate.
Qed.

(** X7. Raising the threshold never adds a voxel to the mask. In exact
    arithmetic, for a stacked volume of shape (nx, ny, nz, nc, 3) and
    thresholds [t1 <= t2], every entry of [mean_fusion t2 img False] is at
    most the entry of [mean_fusion t1 img False] at the same place, and
    likewise for [majority_fusion] run on an array of the same content. *)
Theorem fusion_threshold_monotone
    (t1 t2 : Q) (img : positive) (probs : option bool)
    (h : positive → ndarray Q) (nx ny nz nc : nat) :
  (t1 <= t2)%Q → shape (h img) = [nx; ny; nz; nc; 3] → wf (h img) →
  ∃ m1 m2 j1 j2 : ndarray Z,
    mean_fusion t1 (h img) false = Ok (inr m1) ∧
    mean_fusion t2 (h img) false = Ok (inr m2) ∧
    (majority_fusion t1 img probs h).2 = Ok j1 ∧
    (majority_fusion t2 img probs h).2 = Ok j2 ∧
    Forall2 Z.le (data m2) (data m1) ∧
    Forall2 Z.le (data j2) (data j1).
Proof.
  intros Ht Hs Hwf. eexists _, _, _, _.
  split; [apply (mean_fusion_binary _ _ _ _ _ _ _ Hs)|].
  split; [apply (mean_fusion_binary _ _ _ _ _ _ _ Hs)|].
  split; [apply (majority_fusion_result _ _ _ _ _ _ _ _ _ Hs)|].
  split; [apply (majority_fusion_result _ _ _ _ _ _ _ _ _ Hs)|].
  cbn [data]. unfold wf in Hwf. rewrite Hs in Hwf. simpl in Hwf.
  split; apply Forall2_fmap, Forall_Forall2_diag, Forall_forall;
    intros p Hp%elem_of_seq; cbv beta.
  - rewrite !astype_binarize.
    destruct (greater_equal _ t1 && _) eqn:H1;
      destruct (greater_equal _ t2 && _) eqn:H2; try lia.
    rewrite (Q_bit_monotone t1 t2 _ Ht H2) in H1. discriminate H1.
  - destruct (lane_3_exists (data (h img)) (nx * ny * nz * nc) p)
      as (v0 & v1 & v2 & ->); [lia|lia|].
    cbn [fmap list_fmap]. rewrite !astype_binarize.
    apply vote_monotone; apply Q_bit_monotone; exact Ht.
Qed.

Lemma fusion_threshold_monotone_witness :
  ∃ m1 m2 : ndarray Z,
    mean_fusion (1 # 3)%Q scenario_Q false = Ok (inr m1) ∧
    mean_fusion (1 # 2)%Q scenario_Q false = Ok (inr m2) ∧
    Forall2 Z.le (data m2) (data m1).
Proof.
  assert (Hle : (1 # 3 <= 1 # 2)%Q) by (apply Qle_bool_iff; reflexivity).
  destruct (fusion_threshold_monotone (1 # 3)%Q (1 # 2)%Q 1%positive None
              (λ _, scenario_Q) 1 1 1 2 Hle eq_refl eq_refl)
    as (m1 & m2 & _ & _ & Hm1 & Hm2 & _ & _ & Hle12 & _).
  exists m1, m2. auto.
Defined.

(** ** float64: with and without NaN *)

Lemma SFcompare_nan_r (a : spec_float) : SFcompare a S754_nan = None.
Proof. destruct a; reflexivity. Qed.

Lemma is_nan_true_Prim2SF (x : float) : is_nan x = true → Prim2SF x = S754_nan.
Proof.
  unfold is_nan. rewrite FloatAxioms.eqb_spec, negb_true_iff. unfold SFeqb.
  intros Hx. destruct (Prim2SF x) as [s|s| |s m e] eqn:Hsf; [| |reflexivity|].
  - discriminate Hx.
  - destruct s; discriminate Hx.
  - destruct (SFcompare_antisym (S754_finite s m e) (S754_finite s m e))
      as (c & Hc & Hc'); [discriminate..|].
    rewrite Hc in Hx, Hc'. injection Hc' as Hc'.
    destruct c; discriminate.
Qed.

Lemma float64_compare_nan (x y : float) :
  is_nan x = true ∨ is_nan y = true →
  PrimFloat.leb x y = false ∧ PrimFloat.ltb x y = false.
Proof.
  rewrite leb_spec, ltb_spec. unfold SFleb, SFltb.
  intros [Hx%is_nan_true_Prim2SF | Hy%is_nan_true_Prim2SF].
  - rewrite Hx. split; reflexivity.
  - rewrite Hy, SFcompare_nan_r. split; reflexivity.
Qed.

Lemma float64_binarize_value (t v : float) :
  binarize t v =
    if is_nan t || is_nan v then v
    else if greater_equal v t && negb (less (of_int 1) t)
         then of_int 1 else of_int 0.
Proof.
  unfold binarize.
  destruct (is_nan t) eqn:Ht; [|destruct (is_nan v) eqn:Hv]; simpl orb; cbv iota.
  - destruct (float64_compare_nan t v) as [Hle _]; [by left|].
    destruct (float64_compare_nan v t) as [_ Hlt]; [by right|].
    cbn. by rewrite Hle, Hlt.
  - destruct (float64_compare_nan t v) as [Hle _]; [by right|].
    destruct (float64_compare_nan v t) as [_ Hlt]; [by left|].
    cbn. by rewrite Hle, Hlt.
  - destruct (greater_equal v t) eqn:Hge; cbv zeta.
    + destruct (less (of_int 1) t); reflexivity.
    + by rewrite (float64_less_greater_equal v t Hv Ht), Hge.
Qed.

(** X9. What [majority_fusion] leaves in a float64 array, NaN included.
    An entry [v] of the caller's array is replaced by 1 if [v >= t] and
    [t] is not above 1, and by 0 otherwise, unless [v] or the threshold
    is NaN: a NaN is neither [>= t] nor [< t], so a NaN entry is left as
    it is, and with a NaN threshold no entry is touched. *)
Theorem majority_fusion_in_place_float64
    (t : float) (img : positive) (probs : option bool)
    (h : positive → ndarray float) (idx : list nat) (v : float) :
  item (h img) idx = Some v →
  item ((majority_fusion t img probs h).1 img) idx =
    Some (if is_nan t || is_nan v then v
          else if greater_equal v t && negb (less (of_int 1) t)
               then of_int 1 else of_int 0).
Proof.
  intros Hv. rewrite majority_fusion_heap_img, item_amap, Hv. simpl.
  by rewrite float64_binarize_value.
Qed.

Lemma majority_fusion_in_place_float64_witness :
  item ((majority_fusion 0.5%float 1%positive None (λ _, with_nan)).1 1%positive)
       [0; 0; 0; 0; 0] = Some nan ∧
  item ((majority_fusion 0.5%float 1%positive None (λ _, with_nan)).1 1%positive)
       [0; 0; 0; 0; 1] = Some 1%float.
Proof.
  split.
  - exact (majority_fusion_in_place_float64 0.5%float 1%positive None
             (λ _, with_nan) [0; 0; 0; 0; 0] nan eq_refl).
  - exact (majority_fusion_in_place_float64 0.5%float 1%positive None
             (λ _, with_nan) [0; 0; 0; 0; 1] 0.75%float eq_refl).
Defined.



(** * The reducers on float64 volumes of probabilities *)

(** ** The order of values that are not NaN *)

Lemma SFleb_key (a b : spec_float) :
  a ≠ S754_nan → b ≠ S754_nan →
  SFleb a b = true ↔ key_le (SFkey a) (SFkey b).
Proof.
  intros Ha Hb. unfold SFleb, key_le.
  destruct a as [sa|sa| |sa ma ea]; [| |congruence|];
    destruct b as [sb|sb| |sb mb eb]; try congruence;
    try (destruct sa; destruct sb; simpl; split; intros;
         (lia || reflexivity || discriminate)).
  all: try (destruct sa; simpl; split; intros; (lia || reflexivity || discriminate)).
  all: try (destruct sb; simpl; split; intros; (lia || reflexivity || discriminate)).
  destruct sa, sb; simpl; try (split; intros; (lia || reflexivity || discriminate)).
  all: change (Pos.compare_cont Eq ma mb) with (Pos.compare ma mb).
  all: destruct (Z.compare_spec ea eb), (Pos.compare_spec ma mb); simpl;
    split; intros; (lia || reflexivity || discriminate).
Qed.

Lemma key_le_trans (a b c : Z * Z * Z) : key_le a b → key_le b c → key_le a c.
Proof. unfold key_le. lia. Qed.

Lemma SFleb_not_nan (a b : spec_float) :
  SFleb a b = true → a ≠ S754_nan ∧ b ≠ S754_nan.
Proof.
  unfold SFleb. destruct a as [[]|[]| |[] ? ?]; destruct b as [[]|[]| |[] ? ?];
    simpl; intros; (discriminate || (split; discriminate)).
Qed.

Lemma SFleb_trans (a b c : spec_float) :
  SFleb a b = true → SFleb b c = true → SFleb a c = true.
Proof.
  intros Hab Hbc.
  destruct (SFleb_not_nan _ _ Hab) as [Ha Hb].
  destruct (SFleb_not_nan _ _ Hbc) as [_ Hc].
  apply SFleb_key; [done..|].
  apply (key_le_trans _ (SFkey b)); apply SFleb_key; done.
Qed.

Lemma Prim2SF_is_nan (x : float) : Prim2SF x ≠ S754_nan → is_nan x = false.
Proof.
  intros Hx. unfold is_nan. rewrite FloatAxioms.eqb_spec. unfold SFeqb.
  destruct (SFcompare_antisym _ _ Hx Hx) as (c & Hc & Hc').
  rewrite Hc in Hc' |- *. injection Hc' as Hc'. destruct c; (discriminate || reflexivity).
Qed.

(** [>=] on float64 is transitive, and holds of no NaN. *)
Lemma float64_greater_equal_trans (x y z : float) :
  greater_equal x y = true → greater_equal y z = true → greater_equal x z = true.
Proof.
  cbn. rewrite !leb_spec. intros Hxy Hyz. exact (SFleb_trans _ _ _ Hyz Hxy).
Qed.

Lemma float64_greater_equal_not_nan (x y : float) :
  greater_equal x y = true → is_nan x = false ∧ is_nan y = false.
Proof.
  cbn. rewrite leb_spec. intros [Hy Hx]%SFleb_not_nan.
  split; by apply Prim2SF_is_nan.
Qed.

Lemma float64_less_not_nan (x y : float) :
  less x y = true → is_nan x = false ∧ is_nan y = false.
Proof.
  cbn. intros Hlt.
  destruct (is_nan x) eqn:Hx.
  { destruct (float64_compare_nan x y) as [_ Hl]; [by left|]. congruence. }
  destruct (is_nan y) eqn:Hy.
  { destruct (float64_compare_nan x y) as [_ Hl]; [by right|]. congruence. }
  done.
Qed.

(** What the two masked assignments make of one float64 value: 0 of a
    value below the threshold, and 1 of a value that is [>= t] and at
    most 1, for then [t] is at most 1 and the second assignment leaves
    the 1 that the first has written. *)
Lemma float64_binarize_at_most_one (t v : float) :
  (less v t = true → binarize t v = of_int 0) ∧
  (greater_equal v t = true → greater_equal (of_int 1) v = true →
   binarize t v = of_int 1).
Proof.
  split.
  - intros Hlt. destruct (float64_less_not_nan _ _ Hlt) as [Hv Ht].
    pose proof (float64_less_greater_equal v t Hv Ht) as Hge.
    rewrite Hlt in Hge. unfold binarize.
    destruct (greater_equal v t); [discriminate Hge|]. cbv zeta. by rewrite Hlt.
  - intros Hge H1. unfold binarize. rewrite Hge. cbv zeta.
    pose proof (float64_greater_equal_trans _ _ _ H1 Hge) as H1t.
    destruct (float64_greater_equal_not_nan _ _ H1t) as [Hone Ht].
    by rewrite (float64_less_greater_equal _ _ Hone Ht), H1t.
Qed.

Lemma float64_bit_at_most_one (t v : float) :
  is_nan t = false → greater_equal (of_int 1) v = true →
  astype_int16 (binarize t v) = if greater_equal v t then 1%Z else 0%Z.
Proof.
  intros Ht H1. destruct (float64_greater_equal_not_nan _ _ H1) as [_ Hv].
  destruct (float64_binarize_at_most_one t v) as [Hlt Hge].
  destruct (greater_equal v t) eqn:E.
  - rewrite Hge by done. vm_compute. reflexivity.
  - rewrite Hlt; [vm_compute; reflexivity|].
    by rewrite (float64_less_greater_equal v t Hv Ht), E.
Qed.

(** With a threshold that is not NaN the entry made of a float64 value
    is 0 or 1, NaN included (the cast makes 0 of it). *)
Lemma float64_bit_binary (t v : float) :
  is_nan t = false →
  astype_int16 (binarize t v) = 0%Z ∨ astype_int16 (binarize t v) = 1%Z.
Proof.
  intros Ht. destruct (is_nan v) eqn:Hv.
  - left. rewrite float64_binarize_value, Ht, Hv. cbn [orb].
    apply is_nan_true_Prim2SF in Hv. cbn. unfold f64_astype_int16.
    by rewrite Hv.
  - rewrite (float64_binarize t v Ht Hv).
    destruct (greater_equal v t && negb (less (of_int 1) t)); auto.
Qed.

(** ** Rounding keeps the mean of probabilities in range *)

Section Float64Rounding.
Local Open Scope Z_scope.

(** The exponent of the binary64 format for a number of magnitude [z]. *)
Lemma fexp64 (z : Z) : fexp prec emax z = Z.max (z - 53) (-1074).
Proof. reflexivity. Qed.

(** The number of binary digits of a mantissa. *)
Lemma digits2_pos_bounds (m : positive) :
  2 ^ (Z.pos (digits2_pos m) - 1) <= Z.pos m < 2 ^ Z.pos (digits2_pos m).
Proof.
  assert (Hstep : forall d : positive,
            2 ^ (Z.pos (Pos.succ d) - 1) = 2 * 2 ^ (Z.pos d - 1) /\
            2 ^ Z.pos (Pos.succ d) = 2 * (2 * 2 ^ (Z.pos d - 1)) /\
            2 ^ Z.pos d = 2 * 2 ^ (Z.pos d - 1)).
  { intros d. rewrite Pos2Z.inj_succ.
    assert (E : 2 ^ Z.pos d = 2 * 2 ^ (Z.pos d - 1)).
    { rewrite <- Z.pow_succ_r by lia. f_equal. lia. }
    replace (Z.succ (Z.pos d) - 1) with (Z.pos d) by lia.
    rewrite Z.pow_succ_r by lia. rewrite E. auto. }
  induction m as [m IH|m IH|]; cbn [digits2_pos].
  - destruct (Hstep (digits2_pos m)) as (-> & -> & E). rewrite E in IH. lia.
  - destruct (Hstep (digits2_pos m)) as (-> & -> & E). rewrite E in IH. lia.
  - cbn. lia.
Qed.

Lemma pow2_xO (p : positive) : 2 ^ Z.pos p~0 = 2 ^ Z.pos p * 2 ^ Z.pos p.
Proof. rewrite <- Z.pow_add_r by lia. f_equal. lia. Qed.

Lemma pow2_xI (p : positive) : 2 ^ Z.pos p~1 = 2 * (2 ^ Z.pos p * 2 ^ Z.pos p).
Proof. rewrite <- Z.pow_add_r, <- Z.pow_succ_r by lia. f_equal. lia. Qed.

(** Shifting a mantissa right halves it, rounding down; a mantissa that
    is a multiple of the power shifted out is shifted exactly. *)
Lemma shr_1_m (r : shr_record) : 0 <= shr_m r -> shr_m (shr_1 r) = shr_m r / 2.
Proof.
  destruct r as [m rb sb]. cbn [shr_m]. intros Hm.
  rewrite <- Z.div2_div.
  destruct m as [|[p|p|]|p]; try reflexivity; lia.
Qed.

Lemma iter_shr_m (p : positive) (r : shr_record) :
  0 <= shr_m r ->
  shr_m (SpecFloat.iter_pos shr_1 p r) = shr_m r / 2 ^ Z.pos p.
Proof.
  revert r. induction p as [p IH|p IH|]; intros r Hr; cbn [SpecFloat.iter_pos].
  - assert (H1 : 0 <= shr_m (shr_1 r)) by (rewrite shr_1_m by lia; apply Z.div_pos; lia).
    assert (H2 : 0 <= shr_m (SpecFloat.iter_pos shr_1 p (shr_1 r)))
      by (rewrite IH by lia; apply Z.div_pos; [lia|apply Z.pow_pos_nonneg; lia]).
    rewrite IH, IH, shr_1_m by lia.
    rewrite !Z.div_div by (try lia; apply Z.pow_pos_nonneg; lia).
    f_equal. rewrite pow2_xI. lia.
  - assert (H2 : 0 <= shr_m (SpecFloat.iter_pos shr_1 p r))
      by (rewrite IH by lia; apply Z.div_pos; [lia|apply Z.pow_pos_nonneg; lia]).
    rewrite IH, IH by lia.
    rewrite !Z.div_div by (try lia; apply Z.pow_pos_nonneg; lia).
    f_equal. rewrite pow2_xO. lia.
  - rewrite shr_1_m by lia. reflexivity.
Qed.

Lemma shr_1_exact (j : Z) :
  0 <= j ->
  shr_1 (Build_shr_record (2 * j) false false) = Build_shr_record j false false.
Proof. destruct j as [|q|q]; intros; try reflexivity; lia. Qed.

Lemma iter_shr_exact (p : positive) (k : Z) :
  0 <= k ->
  SpecFloat.iter_pos shr_1 p (Build_shr_record (k * 2 ^ Z.pos p) false false)
  = Build_shr_record k false false.
Proof.
  revert k. induction p as [p IH|p IH|]; intros k Hk; cbn [SpecFloat.iter_pos].
  - assert (Hp : 0 < 2 ^ Z.pos p) by (apply Z.pow_pos_nonneg; lia).
    replace (k * 2 ^ Z.pos p~1) with (2 * ((k * 2 ^ Z.pos p) * 2 ^ Z.pos p)).
    + rewrite shr_1_exact by nia. rewrite IH by nia. apply IH, Hk.
    + rewrite pow2_xI. lia.
  - assert (Hp : 0 < 2 ^ Z.pos p) by (apply Z.pow_pos_nonneg; lia).
    replace (k * 2 ^ Z.pos p~0) with ((k * 2 ^ Z.pos p) * 2 ^ Z.pos p).
    + rewrite IH by nia. apply IH, Hk.
    + rewrite pow2_xO. lia.
  - change (2 ^ 1) with 2. rewrite Z.mul_comm. apply shr_1_exact, Hk.
Qed.

Lemma inexact_range l : 0 <= inexact l <= 1.
Proof. destruct l; cbn; lia. Qed.

Lemma shr_record_of_loc_m m l : shr_m (shr_record_of_loc m l) = m.
Proof. destruct l as [|[]]; reflexivity. Qed.

Lemma loc_of_shr_record_of_loc m l :
  loc_of_shr_record (shr_record_of_loc m l) = l.
Proof. destruct l as [|[]]; reflexivity. Qed.

Lemma pow2_pos (a : Z) : 0 <= a -> 0 < 2 ^ a.
Proof. intros. apply Z.pow_pos_nonneg; lia. Qed.

Lemma pow2_1076 : 2 ^ 1076 = 4 * 2 ^ 1074.
Proof. reflexivity. Qed.

(** A positive mantissa whose value is at most 3 has its leading digit
    below 2 ^ 2. *)
Lemma digits_exponent_bound (K : Z) (q : positive) (e : Z) :
  K <= 3 -> -1074 <= e ->
  Z.pos q * 2 ^ (e + 1074) <= K * 2 ^ 1074 ->
  Z.pos (digits2_pos q) + e < 3.
Proof.
  intros HK He Hq.
  pose proof (digits2_pos_bounds q) as [Hlo _].
  pose proof (pow2_pos (e + 1074) ltac:(lia)) as HS.
  pose proof (pow2_pos 1074 ltac:(lia)) as HP.
  assert (H : 2 ^ (Z.pos (digits2_pos q) - 1 + (e + 1074)) < 2 ^ 1076).
  { rewrite Z.pow_add_r, pow2_1076 by lia. nia. }
  apply Z.pow_lt_mono_r_iff in H; lia.
Qed.

(** Rounding to the format never crosses a bound [K], from 1 to 3, that
    the exact value does not exceed: the truncated mantissa, and the
    one above it when the value is inexact, stay at or below [K]. *)
Lemma shr_fexp_at_most (K mx ex : Z) (lx : location) :
  1 <= K <= 3 -> 0 <= mx -> -1074 <= ex ->
  (mx + inexact lx) * 2 ^ (ex + 1074) <= K * 2 ^ 1074 ->
  0 <= shr_m (fst (shr_fexp prec emax mx ex lx)) /\
  -1074 <= snd (shr_fexp prec emax mx ex lx) /\
  (shr_m (fst (shr_fexp prec emax mx ex lx))
   + inexact (loc_of_shr_record (fst (shr_fexp prec emax mx ex lx))))
  * 2 ^ (snd (shr_fexp prec emax mx ex lx) + 1074) <= K * 2 ^ 1074.
Proof.
  intros HK Hmx Hex Hb. unfold shr_fexp, shr. rewrite fexp64.
  destruct (Z.max (Zdigits2 mx + ex - 53) (-1074) - ex) as [|p|p] eqn:Hn;
    cbn [fst snd];
    try (rewrite shr_record_of_loc_m, loc_of_shr_record_of_loc; auto).
  destruct mx as [|q|q]; [cbn in Hn; lia| |lia].
  cbn [Zdigits2] in Hn.
  pose proof (inexact_range lx) as Hdl.
  pose proof (pow2_pos (ex + 1074) ltac:(lia)) as HS.
  assert (Hq : Z.pos q * 2 ^ (ex + 1074) <= K * 2 ^ 1074) by nia.
  pose proof (digits_exponent_bound K q ex ltac:(lia) Hex Hq) as Hd.
  set (e' := ex + Z.pos p) in *.
  assert (He' : -1074 <= e' <= 0) by lia.
  pose proof (pow2_pos (Z.pos p) ltac:(lia)) as HT.
  pose proof (pow2_pos (- e') ltac:(lia)) as HY.
  assert (HX : 2 ^ (e' + 1074) = 2 ^ (ex + 1074) * 2 ^ Z.pos p).
  { rewrite <- Z.pow_add_r by lia. f_equal. lia. }
  assert (HP : 2 ^ 1074 = 2 ^ (e' + 1074) * 2 ^ (- e')).
  { rewrite <- Z.pow_add_r by lia. f_equal. lia. }
  set (Sx := 2 ^ (ex + 1074)) in *. set (T := 2 ^ Z.pos p) in *.
  set (Y := 2 ^ (- e')) in *.
  rewrite HP, HX in Hb |- *.
  assert (Hle : Z.pos q + inexact lx <= K * Y * T) by nia.
  destruct (Z.eq_dec (Z.pos q) (K * Y * T)) as [Heq|Hne].
  - assert (inexact lx = 0) as Hex0 by lia.
    destruct lx as [|c]; [|cbn in Hex0; lia].
    cbn [shr_record_of_loc]. rewrite Heq. unfold T.
    rewrite iter_shr_exact by nia. cbn [shr_m loc_of_shr_record inexact].
    split; [nia|]. split; [lia|]. fold T. nia.
  - rewrite iter_shr_m by (rewrite shr_record_of_loc_m; lia).
    rewrite shr_record_of_loc_m. fold T.
    assert (Hlt : Z.pos q / T < K * Y).
    { apply Z.div_lt_upper_bound; [lia|]. lia. }
    pose proof (inexact_range (loc_of_shr_record
                               (SpecFloat.iter_pos shr_1 p (shr_record_of_loc (Z.pos q) lx)))).
    split; [apply Z.div_pos; lia|]. split; [lia|]. nia.
Qed.

Lemma round_nearest_even_le m l :
  0 <= m -> 0 <= round_nearest_even m l <= m + inexact l.
Proof.
  intros Hm. destruct l as [|[]]; cbn; try lia. destruct (Z.even m); lia.
Qed.

Lemma binary_round_aux_at_most (K mx ex : Z) (lx : location) :
  1 <= K <= 3 -> 0 <= mx -> -1074 <= ex ->
  (mx + inexact lx) * 2 ^ (ex + 1074) <= K * 2 ^ 1074 ->
  SF_at_most K (binary_round_aux prec emax false mx ex lx).
Proof.
  intros HK Hmx Hex Hb. unfold binary_round_aux.
  pose proof (shr_fexp_at_most K mx ex lx HK Hmx Hex Hb) as (H1 & H2 & H3).
  destruct (shr_fexp prec emax mx ex lx) as [mrs' e']. cbn [fst snd] in *.
  pose proof (round_nearest_even_le (shr_m mrs') (loc_of_shr_record mrs') H1) as Hr.
  set (m2 := round_nearest_even (shr_m mrs') (loc_of_shr_record mrs')) in *.
  pose proof (pow2_pos (e' + 1074) ltac:(lia)) as HS.
  assert (Hb2 : (m2 + inexact loc_Exact) * 2 ^ (e' + 1074) <= K * 2 ^ 1074)
    by (cbn [inexact]; nia).
  pose proof (shr_fexp_at_most K m2 e' loc_Exact HK ltac:(lia) H2 Hb2) as (G1 & G2 & G3).
  destruct (shr_fexp prec emax m2 e' loc_Exact) as [mrs'' e'']. cbn [fst snd] in *.
  pose proof (inexact_range (loc_of_shr_record mrs'')) as Hd.
  pose proof (pow2_pos (e'' + 1074) ltac:(lia)) as HS2.
  destruct (shr_m mrs'') as [|m|m]; [exact I| |lia].
  assert (Hm : Z.pos m * 2 ^ (e'' + 1074) <= K * 2 ^ 1074) by nia.
  assert (He : e'' <= 1) .
  { assert (H : 2 ^ (e'' + 1074) < 2 ^ 1076) by (rewrite pow2_1076; nia).
    apply Z.pow_lt_mono_r_iff in H; lia. }
  replace (e'' <=? emax - prec) with true
    by (symmetry; apply Z.leb_le; change (emax - prec) with 971; lia).
  cbn [SF_at_most]. auto.
Qed.

Lemma iter_xO (d m : positive) : Z.pos (Pos.iter xO m d) = Z.pos m * 2 ^ Z.pos d.
Proof.
  induction d as [|d IH] using Pos.peano_ind.
  - cbn. lia.
  - rewrite Pos.iter_succ, Pos2Z.inj_succ, Z.pow_succ_r, Pos2Z.inj_xO, IH by lia. lia.
Qed.

Lemma shl_align_spec (m : positive) (e e' : Z) :
  -1074 <= e -> -1074 <= e' ->
  Z.pos (fst (shl_align m e e')) * 2 ^ (snd (shl_align m e e') + 1074)
    = Z.pos m * 2 ^ (e + 1074) /\
  snd (shl_align m e e') = Z.min e e'.
Proof.
  intros He He'. unfold shl_align.
  destruct (e' - e) as [|d|d] eqn:Hd; cbn [fst snd]; [split; lia|split; lia|].
  rewrite iter_xO. split; [|lia].
  rewrite <- Z.mul_assoc, <- Z.pow_add_r by lia. do 2 f_equal. lia.
Qed.

Lemma SF_at_most_mono K K' x : K <= K' -> SF_at_most K x -> SF_at_most K' x.
Proof.
  intros HK. destruct x as [s|s| |[] m e]; cbn; auto.
  pose proof (pow2_pos 1074 ltac:(lia)). intros [? ?]. split; [lia|nia].
Qed.

Lemma binary_round_at_most (K : Z) (m : positive) (e : Z) :
  1 <= K <= 3 -> -1074 <= e ->
  Z.pos m * 2 ^ (e + 1074) <= K * 2 ^ 1074 ->
  SF_at_most K (binary_round prec emax false m e).
Proof.
  intros HK He Hm. unfold binary_round.
  pose proof (shl_align_spec m e (fexp prec emax (Z.pos (digits2_pos m) + e)) He
                ltac:(rewrite fexp64; lia)) as [Hv Hs].
  destruct (shl_align m e _) as [mz ez]. cbn [fst snd] in *.
  apply binary_round_aux_at_most; [lia|lia| |cbn [inexact]].
  - rewrite Hs, fexp64. lia.
  - rewrite Z.add_0_r, Hv. exact Hm.
Qed.

(** Hence IEEE addition of two values that are at most [A] and [B] gives
    at most [A + B], and division by 3 of a value that is at most 3
    gives at most 1: rounding to nearest is monotone. *)
Lemma SFadd_at_most (A B : Z) (x y : spec_float) :
  0 <= A -> 0 <= B -> 1 <= A + B <= 3 ->
  SF_at_most A x -> SF_at_most B y -> SF_at_most (A + B) (SFadd prec emax x y).
Proof.
  intros HA HB HAB Hx Hy.
  destruct x as [sx|sx| |[] mx ex]; try contradiction;
    destruct y as [sy|sy| |[] my ey]; try contradiction.
  - cbn [SFadd]. destruct sx, sy; exact I.
  - cbn [SFadd]. apply (SF_at_most_mono B); [lia|exact Hy].
  - cbn [SFadd]. apply (SF_at_most_mono A); [lia|exact Hx].
  - destruct Hx as [Hex Hx], Hy as [Hey Hy]. cbn [SFadd cond_Zopp].
    pose proof (shl_align_spec mx ex (Z.min ex ey) Hex ltac:(lia)) as [Hvx Hsx].
    pose proof (shl_align_spec my ey (Z.min ex ey) Hey ltac:(lia)) as [Hvy Hsy].
    destruct (shl_align mx ex (Z.min ex ey)) as [ax ezx].
    destruct (shl_align my ey (Z.min ex ey)) as [ay ezy].
    cbn [fst snd] in *.
    change (Z.pos ax + Z.pos ay) with (Z.pos (ax + ay)). cbn [binary_normalize].
    apply binary_round_at_most; [lia|lia|].
    rewrite Pos2Z.inj_add.
    replace (Z.min ex ey) with ezx at 1 by lia.
    rewrite Z.mul_add_distr_r, Hvx.
    replace ezx with ezy by lia. rewrite Hvy. lia.
Qed.

Lemma SFdiv_three_at_most (x : spec_float) :
  SF_at_most 3 x ->
  SF_at_most 1 (SFdiv prec emax x (S754_finite false 6755399441055744 (-51))).
Proof.
  destruct x as [s|s| |[] m1 e1]; try contradiction; [intros _; exact I|].
  intros [He Hm]. unfold SFdiv, SFdiv_core_binary.
  set (m2 := 6755399441055744%positive).
  change (Zdigits2 (Z.pos m2)) with 53. cbn [Zdigits2 xorb]. rewrite fexp64.
  pose proof (digits_exponent_bound 3 m1 e1 ltac:(lia) He Hm) as Hd.
  set (d1 := Z.pos (digits2_pos m1)) in *.
  set (e' := Z.min (Z.max (d1 + e1 - (53 + -51) - 53) (-1074)) (e1 - -51)).
  assert (He' : -1074 <= e' <= 0) by lia.
  set (s := e1 - -51 - e').
  assert (Hs : 0 <= s) by lia.
  assert (Hm' : match s with
                | 0 => Z.pos m1
                | Z.pos _ => Z.shiftl (Z.pos m1) s
                | Z.neg _ => 0
                end = Z.pos m1 * 2 ^ s).
  { destruct s as [|p|p] eqn:Es; [lia| |lia]. apply Z.shiftl_mul_pow2. lia. }
  rewrite Hm'.
  pose proof (Z_div_mod (Z.pos m1 * 2 ^ s) (Z.pos m2) ltac:(lia)) as Hdiv.
  destruct (Z.div_eucl (Z.pos m1 * 2 ^ s) (Z.pos m2)) as [q r].
  destruct Hdiv as [Hqr Hr].
  pose proof (pow2_pos (e' + 1074) ltac:(lia)) as HX.
  pose proof (pow2_pos (- e') ltac:(lia)) as HY.
  pose proof (pow2_pos (e1 + 1074) ltac:(lia)) as HS.
  pose proof (pow2_pos s Hs) as HT.
  assert (HP : 2 ^ 1074 = 2 ^ (e' + 1074) * 2 ^ (- e')).
  { rewrite <- Z.pow_add_r by lia. f_equal. lia. }
  assert (HTX : 2 ^ s * 2 ^ (e' + 1074) = 2 ^ (e1 + 1074) * 2 ^ 51).
  { rewrite <- !Z.pow_add_r by lia. f_equal. lia. }
  assert (Hm2 : Z.pos m2 = 3 * 2 ^ 51) by reflexivity.
  set (X := 2 ^ (e' + 1074)) in *. set (Y := 2 ^ (- e')) in *.
  set (Sx := 2 ^ (e1 + 1074)) in *. set (T := 2 ^ s) in *.
  set (C := 2 ^ 51) in *. assert (HC : 0 < C) by (unfold C; lia).
  assert (Hq : 0 <= q) by nia.
  assert (Hle : (Z.pos m2 * q + r) * X <= Z.pos m2 * Y * X).
  { rewrite <- Hqr. rewrite Hm2.
    replace (Z.pos m1 * T * X) with (Z.pos m1 * Sx * C) by nia.
    rewrite HP in Hm. nia. }
  assert (Hle' : Z.pos m2 * q + r <= Z.pos m2 * Y) by nia.
  apply binary_round_aux_at_most; [lia|exact Hq|lia|].
  rewrite HP. fold X Y.
  assert (Hloc : q + inexact (new_location (Z.pos m2) r) <= Y).
  { unfold new_location. change (Z.even (Z.pos m2)) with true. cbv iota.
    unfold new_location_even. destruct (Z.eqb_spec r 0) as [->|Hr0]; cbn [inexact].
    - nia.
    - assert (Z.pos m2 * q < Z.pos m2 * Y) by lia. nia. }
  nia.
Qed.

(** Comparison with 1, on the values the format admits. *)
Lemma valid_finite (s : bool) (m : positive) (e : Z) :
  valid_binary (S754_finite s m e) = true ->
  -1074 <= e /\ Z.pos (digits2_pos m) <= 53 /\
  (-1074 < e -> Z.pos (digits2_pos m) = 53).
Proof.
  unfold valid_binary, SpecFloat.valid_binary, bounded, canonical_mantissa.
  rewrite fexp64. intros [Hc _]%andb_prop. apply Z.eqb_eq in Hc. lia.
Qed.

Lemma SF_at_most_of_leb (N : positive) (x : spec_float) :
  Z.pos N = 2 ^ 52 ->
  valid_binary x = true ->
  SFleb (S754_zero false) x = true ->
  SFleb x (S754_finite false N (-52)) = true ->
  SF_at_most 1 x.
Proof.
  intros HN Hv H0 H1.
  destruct x as [s|s| |s m e]; [exact I|destruct s; discriminate|discriminate|].
  destruct s; [discriminate|]. clear H0.
  destruct (valid_finite _ _ _ Hv) as (He & Hd & _).
  pose proof (digits2_pos_bounds m) as [_ Hhi].
  assert (Hm53 : Z.pos m < 2 ^ 53).
  { eapply Z.lt_le_trans; [exact Hhi|]. apply Z.pow_le_mono_r; lia. }
  unfold SFleb, SFcompare in H1. cbn [SF_at_most]. split; [exact He|].
  change (Pos.compare_cont Eq m N) with (Pos.compare m N) in H1.
  pose proof (pow2_pos (e + 1074) ltac:(lia)) as HS.
  destruct (Z.compare_spec e (-52)) as [-> | Hlt | Hgt]; [| |discriminate].
  - assert (Hm : Z.pos m <= Z.pos N).
    { destruct (Pos.compare_spec m N) as [-> | Hm | Hm]; [lia|lia|discriminate]. }
    change (2 ^ (-52 + 1074)) with (2 ^ 1022).
    assert (E : 2 ^ 1074 = 2 ^ 52 * 2 ^ 1022) by reflexivity.
    rewrite E, <- HN. pose proof (pow2_pos 1022 ltac:(lia)). nia.
  - assert (Hp : 2 ^ (e + 1074) <= 2 ^ 1021) by (apply Z.pow_le_mono_r; lia).
    assert (E : 2 ^ 1074 = 2 ^ 53 * 2 ^ 1021) by reflexivity.
    rewrite E. pose proof (pow2_pos 1021 ltac:(lia)).
    pose proof (pow2_pos 53 ltac:(lia)). nia.
Qed.

Lemma SFleb_of_at_most (N : positive) (x : spec_float) :
  Z.pos N = 2 ^ 52 ->
  valid_binary x = true -> SF_at_most 1 x ->
  SFleb x (S754_finite false N (-52)) = true /\
  SFleb (S754_zero false) x = true.
Proof.
  intros HN Hv Hg.
  destruct x as [s|s| |s m e]; try contradiction; [split; reflexivity|].
  destruct s; [contradiction|]. destruct Hg as [He Hm].
  split; [|reflexivity].
  destruct (valid_finite _ _ _ Hv) as (_ & Hd & Hn).
  pose proof (digits2_pos_bounds m) as [Hlo _].
  pose proof (pow2_pos (e + 1074) ltac:(lia)) as HS.
  unfold SFleb, SFcompare.
  change (Pos.compare_cont Eq m N) with (Pos.compare m N).
  destruct (Z.compare_spec e (-52)) as [-> | Hlt | Hgt]; [|reflexivity|].
  - destruct (Pos.compare_spec m N) as [-> | Hlt | Hgt];
      [reflexivity|reflexivity|].
    exfalso. apply Pos2Z.pos_lt_pos in Hgt.
    change (2 ^ (-52 + 1074)) with (2 ^ 1022) in *.
    assert (E : 2 ^ 1074 = 2 ^ 52 * 2 ^ 1022) by reflexivity.
    rewrite E, <- HN in Hm. pose proof (pow2_pos 1022 ltac:(lia)). nia.
  - exfalso. rewrite Hn in Hlo by lia. change (53 - 1) with 52 in Hlo.
    assert (Hp : 2 ^ 1023 <= 2 ^ (e + 1074)) by (apply Z.pow_le_mono_r; lia).
    assert (E : 2 ^ 1074 = 2 ^ 51 * 2 ^ 1023) by reflexivity.
    rewrite E in Hm. pose proof (pow2_pos 1023 ltac:(lia)).
    assert (2 * 2 ^ 51 = 2 ^ 52) by reflexivity.
    pose proof (pow2_pos 51 ltac:(lia)). nia.
Qed.

(** The mean of three float64 values in [0, 1], as float64 computes it,
    lies in [0, 1]. *)
Lemma float64_mean_3_range (v0 v1 v2 : float) :
  (0 <=? v0)%float = true -> (v0 <=? 1)%float = true ->
  (0 <=? v1)%float = true -> (v1 <=? 1)%float = true ->
  (0 <=? v2)%float = true -> (v2 <=? 1)%float = true ->
  (0 <=? (0 + v0 + v1 + v2) / 3)%float = true /\
  ((0 + v0 + v1 + v2) / 3 <=? 1)%float = true.
Proof.
  rewrite !leb_spec.
  change (Prim2SF 0) with (S754_zero false).
  change (Prim2SF 1) with (S754_finite false 4503599627370496 (-52)).
  intros L0 U0 L1 U1 L2 U2.
  pose proof (SF_at_most_of_leb _ _ eq_refl (Prim2SF_valid v0) L0 U0) as G0.
  pose proof (SF_at_most_of_leb _ _ eq_refl (Prim2SF_valid v1) L1 U1) as G1.
  pose proof (SF_at_most_of_leb _ _ eq_refl (Prim2SF_valid v2) L2 U2) as G2.
  assert (Gz : SF_at_most 0 (S754_zero false)) by exact I.
  pose proof (SFadd_at_most 0 1 _ _ ltac:(lia) ltac:(lia) ltac:(lia) Gz G0) as S1.
  pose proof (SFadd_at_most (0 + 1) 1 _ _ ltac:(lia) ltac:(lia) ltac:(lia) S1 G1) as S2.
  pose proof (SFadd_at_most (0 + 1 + 1) 1 _ _ ltac:(lia) ltac:(lia) ltac:(lia) S2 G2)
    as S3.
  pose proof (SFdiv_three_at_most _ S3) as Gm.
  assert (E : Prim2SF ((0 + v0 + v1 + v2) / 3)
              = SFdiv prec emax
                  (SFadd prec emax (SFadd prec emax
                     (SFadd prec emax (S754_zero false) (Prim2SF v0)) (Prim2SF v1))
                     (Prim2SF v2))
                  (S754_finite false 6755399441055744 (-51))).
  { rewrite div_spec, !add_spec. reflexivity. }
  rewrite <- E in Gm.
  destruct (SFleb_of_at_most 4503599627370496 _ eq_refl (Prim2SF_valid _) Gm)
    as [Hu Hl].
  auto.
Qed.
End Float64Rounding.

(** The mean of three probabilities is a probability, in float64 as in
    exact arithmetic. *)
Lemma float64_mean_of_probabilities (v0 v1 v2 : float) :
  probability v0 → probability v1 → probability v2 →
  probability (mean_lane 3 [v0; v1; v2]).
Proof.
  assert (E0 : (of_int 0 : float) = 0%float) by (vm_compute; reflexivity).
  assert (E1 : (of_int 1 : float) = 1%float) by (vm_compute; reflexivity).
  assert (E3 : (of_int (Z.of_nat 3) : float) = 3%float) by (vm_compute; reflexivity).
  unfold probability, mean_lane, sum_lane. cbn [foldl]. rewrite E0, E1, E3.
  intros [L0 U0] [L1 U1] [L2 U2].
  destruct (float64_mean_3_range v0 v1 v2 L0 U0 L1 U1 L2 U2) as [Hl Hu].
  split; assumption.
Qed.

(** ** The masks of probability volumes *)



(** The mean is the one float64 computes: of (0.7, 0.7, 0.7) it is
    0.6999999999999998, below 0.7, and with threshold 0.7 the entry of
    that voxel is 0; the voxel (1, 1, 1) gives 1. *)
Example mean_fusion_rounded_mean :
  mean_lane 3 [0x1.6666666666666p-1; 0x1.6666666666666p-1; 0x1.6666666666666p-1]%float
    = 0x1.6666666666665p-1%float ∧
  ∃ r : ndarray Z,
    mean_fusion 0x1.6666666666666p-1%float probabilities false = Ok (inr r) ∧
    item r [0; 0; 0; 0] = Some 0%Z ∧ item r [0; 0; 0; 1] = Some 1%Z.
Proof.
  split; [vm_compute; reflexivity|].
  exists (NdArray [1; 1; 1; 4] [0; 1; 0; 0]%Z).
  split; [vm_compute; reflexivity|]. split; reflexivity.
Qed.

(** C2. On float64 arrays, for every stacked volume of shape
    (nx, ny, nz, nc, 3) and every threshold [t] that is a number,
    [majority_fusion t img probs] returns an integer array of shape
    (nx, ny, nz, nc) whose entries are 0 or 1, and at every voxel whose
    three values are at most 1, as probabilities are, the entry is 1
    exactly when at least two of the three values are [>= t]. (Values
    above 1 are left out: of them the statement says nothing.) *)
Theorem majority_fusion_binary_mask
    (t : float) (img : positive) (probs : option bool)
    (h : positive → ndarray float) (nx ny nz nc : nat) :
  is_nan t = false → shape (h img) = [nx; ny; nz; nc; 3] → wf (h img) →
  ∃ r : ndarray Z,
    (majority_fusion t img probs h).2 = Ok r ∧
    shape r = [nx; ny; nz; nc] ∧ wf r ∧
    ∀ x y z c, x < nx → y < ny → z < nz → c < nc →
      ∃ v0 v1 v2 e,
        item (h img) [x; y; z; c; 0] = Some v0 ∧
        item (h img) [x; y; z; c; 1] = Some v1 ∧
        item (h img) [x; y; z; c; 2] = Some v2 ∧
        item r [x; y; z; c] = Some e ∧
        (e = 0%Z ∨ e = 1%Z) ∧
        (greater_equal (of_int 1) v0 = true →
         greater_equal (of_int 1) v1 = true →
         greater_equal (of_int 1) v2 = true →
         (e = 1%Z ↔ 2 ≤ votes t [v0; v1; v2])).
Proof.
  intros Ht Hs Hwf. eexists.
  split; [apply (majority_fusion_result _ _ _ _ _ _ _ _ _ Hs)|].
  split; [reflexivity|]. split.
  { unfold wf. cbn [data shape].
    rewrite length_fmap, length_seq, size_of_4. reflexivity. }
  intros x y z c Hx Hy Hz Hc.
  destruct (lane_of_voxel (h img) nx ny nz nc x y z c Hs Hwf Hx Hy Hz Hc)
    as (v0 & v1 & v2 & Hv0 & Hv1 & Hv2 & Hl).
  exists v0, v1, v2. eexists. repeat (split; [eassumption|]).
  rewrite (item_4 _ nx ny nz nc) by auto. cbn [data].
  rewrite lookup_fmap_seq by (apply ravel_4_lt; auto).
  rewrite Hl. split; [reflexivity|]. split.
  { rewrite vote_spec. destruct (2 <=? _)%Z; auto. }
  intros H0 H1 H2. rewrite votes_3. cbn [fmap list_fmap].
  rewrite !float64_bit_at_most_one by assumption.
  rewrite (count_lane_3 (greater_equal v0 t) (greater_equal v1 t)
             (greater_equal v2 t)).
  destruct (greater_equal v0 t && greater_equal v1 t
            || greater_equal v0 t && greater_equal v2 t
            || greater_equal v1 t && greater_equal v2 t);
    intuition congruence.
Qed.

(** In float64 with threshold 0.7: the voxel (0.7, 0.7, 0.7) has three
    votes and gives 1 (where the mean gives 0); (0.25, 0.5, 1) has one
    vote and gives 0; (0.25, 0.75, 1) has two votes and gives 1. *)
Lemma majority_fusion_binary_mask_witness :
  is_nan 0x1.6666666666666p-1%float = false ∧
  shape probabilities = [1; 1; 1; 4; 3] ∧ wf probabilities ∧
  ∃ r : ndarray Z,
    (majority_fusion 0x1.6666666666666p-1%float 1%positive None
       (λ _, probabilities)).2 = Ok r ∧
    item r [0; 0; 0; 0] = Some 1%Z ∧ item r [0; 0; 0; 2] = Some 0%Z ∧
    item r [0; 0; 0; 3] = Some 1%Z.
Proof.
  split; [reflexivity|]. split; [reflexivity|]. split; [reflexivity|].
  destruct (majority_fusion_binary_mask 0x1.6666666666666p-1%float 1%positive None
              (λ _, probabilities) 1 1 1 4 eq_refl eq_refl eq_refl)
    as (r & Hr & _ & _ & Hvoxel).
  exists r. split; [exact Hr|]. split; [|split].
  - destruct (Hvoxel 0 0 0 0) as (v0 & v1 & v2 & e & H0 & H1 & H2 & He & _ & Hiff);
      [lia..|].
    injection H0 as <-. injection H1 as <-. injection H2 as <-.
    rewrite He. f_equal. apply Hiff; [reflexivity..|]. vm_compute. lia.
  - destruct (Hvoxel 0 0 0 2) as (v0 & v1 & v2 & e & H0 & H1 & H2 & He & Hb & Hiff);
      [lia..|].
    injection H0 as <-. injection H1 as <-. injection H2 as <-.
    rewrite He. destruct Hb as [-> | ->]; [reflexivity|].
    assert (Hv : 2 ≤ votes 0x1.6666666666666p-1%float [0.25; 0.5; 1]%float)
      by (apply Hiff; reflexivity).
    vm_compute in Hv. lia.
  - destruct (Hvoxel 0 0 0 3) as (v0 & v1 & v2 & e & H0 & H1 & H2 & He & _ & Hiff);
      [lia..|].
    injection H0 as <-. injection H1 as <-. injection H2 as <-.
    rewrite He. f_equal. apply Hiff; [reflexivity..|]. vm_compute. lia.
Defined.

(** C8. Once [majority_fusion t img probs] is over, the float64 array
    behind the caller's reference [img] has been binarized in place: it
    has its shape, every entry that was [< t] has been replaced by 0,
    and every entry that was [>= t] and at most 1, as probabilities are,
    has been replaced by 1. (Values above 1 are left out: of them the
    statement says nothing.) *)
Theorem majority_fusion_binarizes_in_place
    (t : float) (img : positive) (probs : option bool)
    (h : positive → ndarray float) (idx : list nat) (v : float) :
  item (h img) idx = Some v →
  shape ((majority_fusion t img probs h).1 img) = shape (h img) ∧
  (less v t = true →
     item ((majority_fusion t img probs h).1 img) idx = Some (of_int 0)) ∧
  (greater_equal v t = true → greater_equal (of_int 1) v = true →
     item ((majority_fusion t img probs h).1 img) idx = Some (of_int 1)).
Proof.
  intros Hv. rewrite majority_fusion_heap_img. split; [reflexivity|].
  rewrite item_amap, Hv. cbn [fmap option_fmap option_map].
  destruct (float64_binarize_at_most_one t v) as [Hlt Hge].
  split; [intros Hl; by rewrite Hlt|intros Hg H1; by rewrite Hge].
Qed.

(** In float64 with threshold 0.7: the entry 0.7 of the caller's array
    has become 1 and the entry 0.25 has become 0. *)
Lemma majority_fusion_binarizes_in_place_witness :
  item probabilities [0; 0; 0; 0; 0] = Some 0x1.6666666666666p-1%float ∧
  item probabilities [0; 0; 0; 2; 0] = Some 0.25%float ∧
  item ((majority_fusion 0x1.6666666666666p-1%float 1%positive None
           (λ _, probabilities)).1 1%positive) [0; 0; 0; 0; 0] = Some 1%float ∧
  item ((majority_fusion 0x1.6666666666666p-1%float 1%positive None
           (λ _, probabilities)).1 1%positive) [0; 0; 0; 2; 0] = Some 0%float.
Proof.
  split; [reflexivity|]. split; [reflexivity|]. split.
  - destruct (majority_fusion_binarizes_in_place 0x1.6666666666666p-1%float
                1%positive None (λ _, probabilities) [0; 0; 0; 0; 0]
                0x1.6666666666666p-1%float eq_refl) as (_ & _ & Hge).
    exact (Hge eq_refl eq_refl).
  - destruct (majority_fusion_binarizes_in_place 0x1.6666666666666p-1%float
                1%positive None (λ _, probabilities) [0; 0; 0; 2; 0]
                0.25%float eq_refl) as (_ & Hlt & _).
    exact (Hlt eq_refl).
Defined.

(** ** Up to seven stacked directions, and the probability output *)

(** X6. [mean_fusion] divides by the length of the direction axis, be it
    three or not. On float64 arrays with [n] directions, from 1 to 7 (the
    lengths for which NumPy sums a lane from left to right, as
    [sum_lane] does), and a threshold that is not NaN, an entry of
    [mean_fusion t img False] whose voxel has a mean that is not NaN is
    1 exactly when that mean, the sum of the [n] values divided by [n]
    as float64 computes them, is [>= t] and [t] is not above 1, and 0
    otherwise. *)
Theorem mean_fusion_float64_up_to_seven_directions
    (t : float) (img : ndarray float) (nx ny nz nc n : nat) :
  is_nan t = false → 0 < n → n < 8 → shape img = [nx; ny; nz; nc; n] →
  ∃ r : ndarray Z,
    mean_fusion t img false = Ok (inr r) ∧ shape r = [nx; ny; nz; nc] ∧
    ∀ x y z c, x < nx → y < ny → z < nz → c < nc →
      let m :=
        true_divide (sum_lane (omap (λ k, item img [x; y; z; c; k]) (seq 0 n)))
                    (of_int (Z.of_nat n)) in
      is_nan m = false →
      item r [x; y; z; c] =
        Some (if greater_equal m t && negb (less (of_int 1) t) then 1%Z else 0%Z).
Proof.
  intros Ht _ _ Hs. eexists. split; [apply (mean_fusion_binary _ _ _ _ _ _ _ Hs)|].
  split; [reflexivity|].
  intros x y z c Hx Hy Hz Hc m Hm.
  rewrite (item_4 _ nx ny nz nc) by auto. cbn [data].
  rewrite lookup_fmap_seq by (apply ravel_4_lt; auto).
  rewrite (lane_of_items img nx ny nz nc n) by auto.
  f_equal. exact (float64_binarize t m Ht Hm).
Qed.

Lemma mean_fusion_float64_up_to_seven_directions_witness :
  ∃ r : ndarray Z,
    mean_fusion 0.5%float five_directions false = Ok (inr r) ∧
    item r [0; 0; 0; 0] = Some 1%Z.
Proof.
  destruct (mean_fusion_float64_up_to_seven_directions 0.5%float five_directions
              1 1 1 1 5 eq_refl) as (r & Hr & _ & Hitem); [lia|lia|reflexivity|].
  exists r. split; [exact Hr|].
  rewrite (Hitem 0 0 0 0) by (lia || reflexivity). reflexivity.
Defined.

(** X16. The probability output of a volume of probabilities is a volume
    of probabilities: on float64 arrays of shape (nx, ny, nz, nc, 3)
    whose entries all lie in [0, 1], every entry of what [mean_fusion]
    returns with [probs=True] lies in [0, 1], whatever the threshold.
    The three roundings of the mean never take it out of the range. *)
Theorem mean_fusion_probs_of_probabilities
    (t : float) (img : ndarray float) (nx ny nz nc : nat) :
  shape img = [nx; ny; nz; nc; 3] → wf img →
  Forall probability (data img) →
  ∃ r : ndarray float,
    mean_fusion t img true = Ok (inl r) ∧ shape r = [nx; ny; nz; nc] ∧
    Forall probability (data r).
Proof.
  intros Hs Hwf Hrange. rewrite mean_fusion_probs. unfold mean_axis4.
  rewrite (reduce_axis4_5d _ _ _ _ _ _ _ Hs). eexists.
  split; [reflexivity|]. split; [reflexivity|]. cbn [data].
  apply Forall_fmap, Forall_forall. intros p Hp%elem_of_seq. cbv beta.
  unfold wf in Hwf. rewrite Hs in Hwf. simpl in Hwf.
  destruct (lookup_lt_is_Some_2 (data img) (p * 3 + 0)) as [v0 H0]; [lia|].
  destruct (lookup_lt_is_Some_2 (data img) (p * 3 + 1)) as [v1 H1]; [lia|].
  destruct (lookup_lt_is_Some_2 (data img) (p * 3 + 2)) as [v2 H2]; [lia|].
  unfold compose. rewrite (lane_3 _ _ _ _ _ H0 H1 H2).
  apply float64_mean_of_probabilities;
    [exact (Forall_lookup_1 _ _ _ _ Hrange H0)
    |exact (Forall_lookup_1 _ _ _ _ Hrange H1)
    |exact (Forall_lookup_1 _ _ _ _ Hrange H2)].
Qed.

Lemma mean_fusion_probs_of_probabilities_witness :
  shape probabilities = [1; 1; 1; 4; 3] ∧ wf probabilities ∧
  Forall probability (data probabilities) ∧
  ∃ r : ndarray float,
    mean_fusion 0.5%float probabilities true = Ok (inl r) ∧
    Forall probability (data r).
Proof.
  assert (Hp : Forall probability (data probabilities))
    by (repeat (constructor; [split; reflexivity|]); constructor).
  split; [reflexivity|]. split; [reflexivity|]. split; [exact Hp|].
  destruct (mean_fusion_probs_of_probabilities 0.5%float probabilities 1 1 1 4
              eq_refl eq_refl Hp) as (r & Hr & _ & Hin).
  exists r. auto.
Defined.

(** ** A threshold above 1 *)

Lemma float64_bit_above_one (t v : float) :
  less (of_int 1) t = true → astype_int16 (binarize t v) = 0%Z.
Proof.
  intros H1t. destruct (float64_less_not_nan _ _ H1t) as [_ Ht].
  destruct (is_nan v) eqn:Hv.
  - rewrite float64_binarize_value, Ht, Hv. cbn [orb].
    apply is_nan_true_Prim2SF in Hv. cbn. unfold f64_astype_int16.
    by rewrite Hv.
  - by rewrite (float64_binarize t v Ht Hv), H1t, andb_false_r.
Qed.

Lemma count_lane_zeros (l : list Z) : Forall (λ b, b = 0%Z) l → count_lane l = 0%Z.
Proof.
  unfold count_lane. induction 1 as [|b l -> _ IH]; [reflexivity|]. exact IH.
Qed.

(** X8. With a threshold above 1 both reducers return the mask of zeros
    on every float64 array of shape (nx, ny, nz, nc, 3), whatever its
    entries, NaN included: nothing is [>= t] and stays 1, since the 1
    that the first masked assignment writes is below [t] for the
    second. *)
Theorem fusion_float64_threshold_above_one
    (t : float) (img : positive) (probs : option bool)
    (h : positive → ndarray float) (nx ny nz nc : nat) :
  less (of_int 1) t = true → shape (h img) = [nx; ny; nz; nc; 3] →
  mean_fusion t (h img) false = Ok (inr (full [nx; ny; nz; nc] 0%Z)) ∧
  (majority_fusion t img probs h).2 = Ok (full [nx; ny; nz; nc] 0%Z).
Proof.
  intros Ht Hs. split.
  - rewrite (mean_fusion_binary _ _ _ _ _ _ _ Hs). unfold full. do 3 f_equal.
    rewrite (fmap_const _ 0%Z) by (intros p; apply float64_bit_above_one, Ht).
    rewrite length_seq, size_of_4. reflexivity.
  - rewrite (majority_fusion_result _ _ _ _ _ _ _ _ _ Hs). unfold full. do 2 f_equal.
    rewrite (fmap_const _ 0%Z).
    + rewrite length_seq, size_of_4. reflexivity.
    + intros p. rewrite count_lane_zeros; [reflexivity|].
      apply Forall_fmap, Forall_forall. intros v _.
      apply float64_bit_above_one, Ht.
Qed.

Lemma fusion_float64_threshold_above_one_witness :
  mean_fusion 1.5%float all_two false = Ok (inr (full [1; 1; 1; 1] 0%Z)) ∧
  (majority_fusion 1.5%float 1%positive None (λ _, with_nan)).2
  = Ok (full [1; 1; 1; 1] 0%Z).
Proof.
  split.
  - exact (proj1 (fusion_float64_threshold_above_one 1.5%float 1%positive None
                    (λ _, all_two) 1 1 1 1 eq_refl eq_refl)).
  - exact (proj2 (fusion_float64_threshold_above_one 1.5%float 1%positive None
                    (λ _, with_nan) 1 1 1 1 eq_refl eq_refl)).
Defined.

(** * Further properties of the runner *)

(** ** Stacking: what is checked and what is not *)

Lemma size_of_app_1 (s : list nat) : size_of (s ++ [1]) = size_of s.
Proof. unfold size_of. rewrite foldr_app. reflexivity. Qed.

Lemma reshape_by_size {V} (a : ndarray V) (s : list nat) :
  length (data a) = size_of s →
  reshape a (s ++ [1]) = Ok (NdArray (s ++ [1]) (data a)).
Proof.
  intros Hlen. unfold reshape. rewrite size_of_app_1, Hlen.
  by rewrite Nat.eqb_refl.
Qed.

(** X11. Stacking checks the number of elements of the y- and
    z-direction volumes, not their shapes. When the x-direction volume
    has shape (nx, ny, nz, nc) and the other two have as many elements,
    whatever their own shapes, the three are stacked without error into
    a well-formed volume of shape (nx, ny, nz, nc, 3), the buffers of y
    and z being read in C order under the shape of x: the entry at flat
    position [p] and direction [k] is the [p]-th element of the [k]-th
    buffer. *)
Theorem stack_directions_checks_sizes_only {V E : Type}
    (px py pz : ndarray V) (nx ny nz nc : nat) :
  shape px = [nx; ny; nz; nc] →
  length (data px) = nx * ny * nz * nc →
  length (data py) = nx * ny * nz * nc →
  length (data pz) = nx * ny * nz * nc →
  ∃ stk,
    stack_directions (E:=E) [px; py; pz] = Ok stk ∧
    shape stk = [nx; ny; nz; nc; 3] ∧ wf stk ∧
    ∀ p, p < nx * ny * nz * nc →
      data stk !! (p * 3 + 0) = data px !! p ∧
      data stk !! (p * 3 + 1) = data py !! p ∧
      data stk !! (p * 3 + 2) = data pz !! p.
Proof.
  intros Hx Wx Wy Wz. unfold stack_directions. rewrite Hx.
  rewrite !reshape_by_size by (rewrite size_of_4; assumption).
  unfold concatenate_axis4. simpl shape.
  simpl app. simpl forallb. unfold same_but_axis4.
  rewrite bool_decide_eq_true_2 by done. simpl andb. cbv iota.
  set (f := λ p : nat, _ ≫= _).
  assert (Hf : ∀ p, p < nx * ny * nz * nc →
            ∃ vx vy vz, data px !! p = Some vx ∧ data py !! p = Some vy ∧
                        data pz !! p = Some vz ∧ f p = [vx; vy; vz]).
  { intros p Hp.
    destruct (lookup_lt_is_Some_2 (data px) p) as [vx Hvx]; [lia|].
    destruct (lookup_lt_is_Some_2 (data py) p) as [vy Hvy]; [lia|].
    destruct (lookup_lt_is_Some_2 (data pz) p) as [vz Hvz]; [lia|].
    exists vx, vy, vz. repeat (split; [assumption|]).
    unfold f. cbn. rewrite !Nat.mul_1_r.
    by rewrite (take_1_drop _ _ _ Hvx), (take_1_drop _ _ _ Hvy),
               (take_1_drop _ _ _ Hvz). }
  assert (Hlen : ∀ p, 0 ≤ p < 0 + nx * ny * nz * nc → length (f p) = 3).
  { intros p Hp. destruct (Hf p) as (? & ? & ? & _ & _ & _ & ->); [lia|done]. }
  eexists. split; [reflexivity|]. split; [reflexivity|]. split.
  - unfold wf. simpl data. simpl shape.
    rewrite (length_bind_chunks f 3) by exact Hlen. simpl. lia.
  - intros p Hp. destruct (Hf p Hp) as (vx & vy & vz & Hvx & Hvy & Hvz & Hfp).
    simpl data.
    rewrite !(lookup_bind_chunks f 3) by (auto; lia).
    simpl. rewrite Hfp, Hvx, Hvy, Hvz. auto.
Qed.

Lemma stack_directions_checks_sizes_only_witness :
  stack_directions (E:=Empty_set) [probs_Q; probs_Q_column; probs_Q_row]
  = Ok scenario_Q.
Proof.
  destruct (stack_directions_checks_sizes_only (E:=Empty_set)
              probs_Q probs_Q_column probs_Q_row 1 1 1 2
              eq_refl eq_refl eq_refl eq_refl) as (stk & Hstk & _).
  rewrite Hstk. f_equal.
  assert (Hc : stack_directions (E:=Empty_set)
                 [probs_Q; probs_Q_column; probs_Q_row] = Ok scenario_Q)
    by reflexivity.
  rewrite Hstk in Hc. by injection Hc.
Defined.

(** X12. How stacking fails. [stack_directions] on the three volumes
    raises [ValueError] exactly when the buffer of one of them does not
    have the number of elements of the x-direction's shape; when the
    sizes agree it raises [AxisError] exactly when the x-direction volume
    has fewer than four axes; it raises nothing else, and returns
    otherwise. *)
Theorem stack_directions_outcome {V E : Type} (px py pz : ndarray V) :
  let n := size_of (shape px) in
  let sizes_agree :=
    length (data px) = n ∧ length (data py) = n ∧ length (data pz) = n in
  match stack_directions (E:=E) [px; py; pz] with
  | Ok _ => sizes_agree ∧ 4 ≤ length (shape px)
  | Raise (NumPy ValueError) => ¬ sizes_agree
  | Raise (NumPy AxisError) => sizes_agree ∧ length (shape px) < 4
  | Raise _ => False
  end.
Proof.
  cbv zeta. unfold stack_directions, reshape. rewrite size_of_app_1.
  destruct (size_of (shape px) =? length (data px)) eqn:Ex;
    [apply Nat.eqb_eq in Ex|apply Nat.eqb_neq in Ex; intros (? & _); lia].
  destruct (size_of (shape px) =? length (data py)) eqn:Ey;
    [apply Nat.eqb_eq in Ey|apply Nat.eqb_neq in Ey; intros (_ & ? & _); lia].
  destruct (size_of (shape px) =? length (data pz)) eqn:Ez;
    [apply Nat.eqb_eq in Ez|apply Nat.eqb_neq in Ez; intros (_ & _ & ?); lia].
  unfold concatenate_axis4. simpl shape. simpl forallb. unfold same_but_axis4.
  rewrite bool_decide_eq_true_2 by done. simpl andb.
  destruct (shape px) as [|s0 [|s1 [|s2 [|s3 rest]]]]; simpl;
    try (split; [auto|lia]).
  destruct rest; simpl; (split; [auto|lia]).
Qed.

(** ** The runner, whatever its outcome *)

Section RunnerOutcomes.
Context {V E W O Model Data Labels DataManager TrainerT : Type}.
Context (ById : gmap string (attr O) → string → W → W * outcome E DataManager).
Context (ByFile : gmap string (attr O) → option Data → W → W * outcome E DataManager).
Context (Trainer : Model → DataManager → W → W * outcome E TrainerT).
Context (get_seg : TrainerT → gmap string (attr O) → bool → bool → W →
                   W * outcome E (ndarray V * Labels)).
Context (model : Model) (subject : option string) (d : option Data) (scale : bool).

Local Abbreviation iteration :=
  (process_direction ById ByFile Trainer get_seg model subject d scale).

Ltac run_calls :=
  repeat match goal with
    | |- context [ById ?hp ?s ?w] => destruct (ById hp s w) as [? [?|?]]
    | |- context [ByFile ?hp ?s ?w] => destruct (ByFile hp s w) as [? [?|?]]
    | |- context [Trainer ?m ?dm ?w] => destruct (Trainer m dm w) as [? [?|?]]
    | |- context [get_seg ?tr ?hp ?p ?s ?w] =>
        destruct (get_seg tr hp p s w) as [? [[? ?]|?]]
    end; simpl.

(** One turn of the loop, however it ends: it makes at most one
    inference call, asking for probabilities with the caller's scaling
    flag; a turn that raises passes on what a collaborator raised. *)
Lemma process_direction_any idx dir st :
  ∃ evs,
    trace (iteration idx dir st).1 = trace st ++ evs ∧
    match (iteration idx dir st).2 with
    | Ok r =>
        inferences evs =
          [(<["SLICE_DIRECTION" := AStr dir]> (HP st), true, scale, Ok r)]
    | Raise x =>
        ∃ e, x = Raised e ∧
          (inferences evs = [] ∨
           inferences evs =
             [(<["SLICE_DIRECTION" := AStr dir]> (HP st), true, scale, Raise e)])
    end.
Proof.
  unfold process_direction, bind, setattr, log, getHP, call, returned, ret, raise.
  simpl. destruct (truthy subject); simpl; run_calls;
    rewrite <- ?app_assoc; eexists; (split; [reflexivity|]);
    first [reflexivity | eexists; split; [reflexivity|]; (by left) || (by right)].
Qed.

Lemma succeeded_app
    (evs1 evs2 : list (event (V:=V) (E:=E) (O:=O) (Model:=Model)
                         (Data:=Data) (Labels:=Labels) (DataManager:=DataManager))) :
  succeeded (evs1 ++ evs2) = succeeded evs1 ++ succeeded evs2.
Proof. unfold succeeded. by rewrite inferences_app, omap_app. Qed.

Lemma process_direction_summary idx dir st :
  ∃ evs,
    trace (iteration idx dir st).1 = trace st ++ evs ∧
    length (inferences evs) ≤ 1 ∧
    Forall (λ i, i.1.1.2 = true ∧ i.1.2 = scale) (inferences evs) ∧
    HP (iteration idx dir st).1 = <["SLICE_DIRECTION" := AStr dir]> (HP st) ∧
    match (iteration idx dir st).2 with
    | Ok r => succeeded evs = [r] ∧ length (inferences evs) = 1
    | Raise x => ∃ e, x = Raised e ∧ succeeded evs = []
    end.
Proof.
  destruct (process_direction_any idx dir st) as (evs & Ht & Ho).
  exists evs. split; [exact Ht|].
  pose proof (process_direction_HP ById ByFile Trainer get_seg model subject d
                scale idx dir st) as Hhp.
  unfold succeeded.
  destruct ((iteration idx dir st).2) as [r|x].
  - rewrite Ho. simpl.
    split; [lia|]. split; [by repeat constructor|]. split; [exact Hhp|]. done.
  - destruct Ho as (e & -> & [Hi|Hi]); rewrite Hi; simpl;
      (split; [lia|]); (split; [by repeat constructor|]);
      (split; [exact Hhp|]); by exists e.
Qed.

(** The loop and the stacking, however they end: the only attribute of
    the configuration that has changed is [SLICE_DIRECTION], which names
    one of the three directions; at most three inference calls were
    made, each for probabilities with the caller's scaling flag. *)
Lemma run_whatever_outcome st :
  (∀ name, name ≠ "SLICE_DIRECTION" →
     HP (get_seg_single_img_3_directions ById ByFile Trainer get_seg
           model subject d scale st).1 !! name = HP st !! name) ∧
  (∃ dir, dir ∈ ["x"; "y"; "z"] ∧
     HP (get_seg_single_img_3_directions ById ByFile Trainer get_seg
           model subject d scale st).1 !! "SLICE_DIRECTION" = Some (AStr dir)) ∧
  ∃ evs,
    trace (get_seg_single_img_3_directions ById ByFile Trainer get_seg
             model subject d scale st).1 = trace st ++ evs ∧
    length (inferences evs) ≤ 3 ∧
    Forall (λ i, i.1.1.2 = true ∧ i.1.2 = scale) (inferences evs).
Proof.
  rewrite run_unfold.
  destruct (process_direction_summary 0 "x" st) as (evs1 & T1 & L1 & F1 & H1 & _).
  destruct (iteration 0 "x" st) as [st1 [[px lx]|e]]; simpl in T1, H1.
  2: { simpl. rewrite H1. split; [intros; by rewrite lookup_insert_ne|].
       split; [exists "x"; split; [set_solver|apply lookup_insert_eq]|].
       exists evs1. split; [exact T1|]. split; [lia|exact F1]. }
  destruct (process_direction_summary 1 "y" st1) as (evs2 & T2 & L2 & F2 & H2 & _).
  destruct (iteration 1 "y" st1) as [st2 [[py ly]|e]]; simpl in T2, H2.
  2: { simpl. rewrite H2, H1. split; [intros; by rewrite !lookup_insert_ne|].
       split; [exists "y"; split; [set_solver|apply lookup_insert_eq]|].
       exists (evs1 ++ evs2). rewrite T2, T1, <- app_assoc, inferences_app.
       split; [reflexivity|]. split; [rewrite length_app; lia|].
       rewrite Forall_app. auto. }
  destruct (process_direction_summary 2 "z" st2) as (evs3 & T3 & L3 & F3 & H3 & _).
  assert (Hend : ∀ o : outcome (exn E) (ndarray V * Labels),
            (∀ name, name ≠ "SLICE_DIRECTION" →
               HP ((iteration 2 "z" st2).1, o).1 !! name = HP st !! name) ∧
            (∃ dir, dir ∈ ["x"; "y"; "z"] ∧
               HP ((iteration 2 "z" st2).1, o).1 !! "SLICE_DIRECTION"
               = Some (AStr dir)) ∧
            ∃ evs, trace ((iteration 2 "z" st2).1, o).1 = trace st ++ evs ∧
                   length (inferences evs) ≤ 3 ∧
                   Forall (λ i, i.1.1.2 = true ∧ i.1.2 = scale) (inferences evs)).
  { intros o. simpl. rewrite H3, H2, H1.
    split; [intros; by rewrite !lookup_insert_ne|].
    split; [exists "z"; split; [set_solver|apply lookup_insert_eq]|].
    exists (evs1 ++ evs2 ++ evs3). rewrite T3, T2, T1, <- !app_assoc, !inferences_app.
    split; [reflexivity|]. split; [rewrite !length_app; lia|].
    rewrite !Forall_app. auto. }
  destruct (iteration 2 "z" st2) as [st3 [[pz lz]|e]]; apply Hend.
Qed.

Lemma stack_directions_raises_numpy (px py pz : ndarray V) (x : exn E) :
  stack_directions [px; py; pz] = Raise x → ∃ e, x = NumPy e.
Proof.
  unfold stack_directions.
  destruct (reshape px _); [|intros [= <-]; eauto].
  destruct (reshape py _); [|intros [= <-]; eauto].
  destruct (reshape pz _); [|intros [= <-]; eauto].
  destruct (concatenate_axis4 _); [discriminate|intros [= <-]; eauto].
Qed.

(** How the loop and the stacking fail. If what is raised comes from a
    collaborator, then the inference calls made are [k] calls that
    returned, fewer than three, followed by nothing or by the one call
    that raised it, made in the direction of the turn that failed, where
    the configuration is left. If it is a NumPy error, of the stacking,
    then exactly three inference calls were made and all returned. The
    unpacking of the three volumes cannot fail and the label volume is
    always bound. *)
Lemma run_failure_trace st st' x :
  get_seg_single_img_3_directions ById ByFile Trainer get_seg
    model subject d scale st = (st', Raise x) →
  ∃ evs,
    trace st' = trace st ++ evs ∧
    match x with
    | Raised e =>
        ∃ k dir oks last,
          ["x"; "y"; "z"] !! k = Some dir ∧
          inferences evs = oks ++ last ∧
          length oks = k ∧
          Forall (λ i, ∃ r, i.2 = Ok r) oks ∧
          (last = [] ∨
           last = [(<["SLICE_DIRECTION" := AStr dir]> (HP st), true, scale, Raise e)]) ∧
          HP st' !! "SLICE_DIRECTION" = Some (AStr dir)
    | NumPy e =>
        length (inferences evs) = 3 ∧
        Forall (λ i, ∃ r, i.2 = Ok r) (inferences evs) ∧
        HP st' !! "SLICE_DIRECTION" = Some (AStr "z")
    | UnpackError | UnboundLocalError => False
    end.
Proof.
  rewrite run_unfold.
  destruct (process_direction_any 0 "x" st) as (evs1 & T1 & O1).
  pose proof (process_direction_HP ById ByFile Trainer get_seg model subject d
                scale 0 "x" st) as H1.
  destruct (iteration 0 "x" st) as [st1 [[px lx]|e1]]; simpl in T1, H1, O1.
  2: { intros [= <- <-]. destruct O1 as (e & -> & Hi). exists evs1.
       split; [exact T1|]. exists 0, "x", [], (inferences evs1).
       rewrite H1, lookup_insert_eq. repeat split; auto. }
  destruct (process_direction_any 1 "y" st1) as (evs2 & T2 & O2).
  pose proof (process_direction_HP ById ByFile Trainer get_seg model subject d
                scale 1 "y" st1) as H2.
  rewrite H1, insert_insert_eq in O2.
  destruct (iteration 1 "y" st1) as [st2 [[py ly]|e2]]; simpl in T2, H2, O2.
  2: { intros [= <- <-]. destruct O2 as (e & -> & Hi). exists (evs1 ++ evs2).
       rewrite T2, T1, <- app_assoc. split; [reflexivity|].
       exists 1, "y", (inferences evs1), (inferences evs2).
       rewrite inferences_app, H2, lookup_insert_eq, O1.
       repeat split; auto. repeat constructor. by eexists. }
  destruct (process_direction_any 2 "z" st2) as (evs3 & T3 & O3).
  pose proof (process_direction_HP ById ByFile Trainer get_seg model subject d
                scale 2 "z" st2) as H3.
  rewrite H2, H1, !insert_insert_eq in O3.
  destruct (iteration 2 "z" st2) as [st3 [[pz lz]|e3]]; simpl in T3, H3, O3.
  2: { intros [= <- <-]. destruct O3 as (e & -> & Hi).
       exists (evs1 ++ evs2 ++ evs3).
       rewrite T3, T2, T1, <- !app_assoc. split; [reflexivity|].
       exists 2, "z", (inferences evs1 ++ inferences evs2), (inferences evs3).
       rewrite !inferences_app, H3, lookup_insert_eq, O1, O2, app_assoc.
       repeat split; auto. repeat constructor; by eexists. }
  destruct (stack_directions (E:=E) [px; py; pz]) as [stk|x'] eqn:Hstk;
    [discriminate|].
  intros [= <- <-]. destruct (stack_directions_raises_numpy _ _ _ _ Hstk) as [e ->].
  exists (evs1 ++ evs2 ++ evs3).
  rewrite T3, T2, T1, <- !app_assoc. split; [reflexivity|].
  rewrite !inferences_app, O1, O2, O3, H3, lookup_insert_eq.
  repeat split; auto. repeat constructor; by eexists.
Qed.

(** Without a subject that counts as true, a turn of the loop builds
    the data manager from the data, and does as it does with no subject
    at all. *)
Lemma process_direction_by_data idx dir st :
  truthy subject = None →
  iteration idx dir st =
    process_direction ById ByFile Trainer get_seg model None d scale idx dir st ∧
  ∃ evs,
    trace (iteration idx dir st).1 = trace st ++ evs ∧
    by_id_calls evs = [] ∧
    ∀ r, (iteration idx dir st).2 = Ok r →
         by_file_calls evs = [(<["SLICE_DIRECTION" := AStr dir]> (HP st), d)].
Proof.
  intros Hs.
  unfold process_direction, bind, setattr, log, getHP, call, returned, ret, raise.
  rewrite Hs. split; [reflexivity|]. simpl. run_calls;
    rewrite <- ?app_assoc; eexists; (split; [reflexivity|]);
    (split; [reflexivity|]); intros r; (discriminate || reflexivity).
Qed.

Lemma for_directions_by_data directions idx prob_slices img_y st :
  truthy subject = None →
  for_directions ById ByFile Trainer get_seg model subject d scale
    idx directions prob_slices img_y st =
  for_directions ById ByFile Trainer get_seg model None d scale
    idx directions prob_slices img_y st.
Proof.
  intros Hs. revert idx prob_slices img_y st.
  induction directions as [|dir rest IH]; intros idx prob_slices img_y st;
    [reflexivity|].
  simpl. unfold bind.
  rewrite <- (proj1 (process_direction_by_data idx dir st Hs)).
  destruct (iteration idx dir st) as [st1 [[p l]|e]]; [apply IH|reflexivity].
Qed.

(** A subject that does not count as true is no subject to the loop. *)
Lemma run_falsy_subject st :
  truthy subject = None →
  get_seg_single_img_3_directions ById ByFile Trainer get_seg
    model subject d scale st =
  get_seg_single_img_3_directions ById ByFile Trainer get_seg
    model None d scale st.
Proof.
  intros Hs. unfold get_seg_single_img_3_directions, bind.
  by rewrite for_directions_by_data.
Qed.
End RunnerOutcomes.

Lemma failing_run_raises :
  FailingStub.run (Some "s01") None =
    ((FailingStub.run (Some "s01") None).1, Raise (Raised "out of memory")).
Proof. vm_compute. reflexivity. Qed.

(** With the failing stub the second inference fails: one inference had
    returned, and the configuration is left at y. *)
Example failing_run_leaves_y :
  length (succeeded (trace (FailingStub.run (Some "s01") None).1)) = 1 ∧
  HP (FailingStub.run (Some "s01") None).1 !! "SLICE_DIRECTION" = Some (AStr "y") ∧
  world (FailingStub.run (Some "s01") None).1 =
    ["by_id x"; "trainer"; "get_seg x"; "by_id y"; "trainer"; "get_seg y fails"].
Proof. vm_compute. repeat split; reflexivity. Qed.

(** ** The whole call, whatever its outcome *)

Section CallOutcomes.
Context {V E W O Model Data Labels DataManager TrainerT : Type}.
Context (import_Trainer :
           W → W * outcome E (Model → DataManager → W → W * outcome E TrainerT)).
Context (ById : gmap string (attr O) → string → W → W * outcome E DataManager).
Context (ByFile : gmap string (attr O) → option Data → W → W * outcome E DataManager).
Context (get_seg : TrainerT → gmap string (attr O) → bool → bool → W →
                   W * outcome E (ndarray V * Labels)).
Context (model : Model) (subject : option string) (d : option Data) (scale : bool).



End CallOutcomes.

Lemma failing_call_raises :
  FailingStub.call (Some "s01") None =
    ((FailingStub.call (Some "s01") None).1, Raise (Raised "out of memory")).
Proof. vm_compute. reflexivity. Qed.

Lemma no_trainer_call_raises :
  NoTrainer.call (Some "s01") None =
    ((NoTrainer.call (Some "s01") None).1,
     Raise (Raised "No module named tractseg.libs.Trainer")).
Proof. vm_compute. reflexivity. Qed.



Lemma stub_call_by_data_returns :
  Stub.call (Some "") None =
    ((Stub.call (Some "") None).1, Ok (scenario_Q, "labels-z")).
Proof. vm_compute. reflexivity. Qed.


(** ** The trace of a call that returns *)

Section RunnerTrace.
Context {V E W O Model Data Labels DataManager TrainerT : Type}.
Context (ById : gmap string (attr O) → string → W → W * outcome E DataManager).
Context (ByFile : gmap string (attr O) → option Data → W → W * outcome E DataManager).
Context (Trainer : Model → DataManager → W → W * outcome E TrainerT).
Context (get_seg : TrainerT → gmap string (attr O) → bool → bool → W →
                   W * outcome E (ndarray V * Labels)).
Context (model : Model) (subject : option string) (d : option Data) (scale : bool).

End RunnerTrace.

